(** * big_O: the measurement-to-model-selection pipeline

    A shallow embedding of [big_o/big_o.py]: the timing harness
    [measure_execution_time], the model selector [infer_big_o_class] and
    the orchestrator [big_o], together with the few library routines they
    call ([numpy.linspace], [ndarray.astype], [numpy.min],
    [timeit.Timer.repeat]) and the logging helper of [big_o/logging.py].

    Conventions.
    - IEEE doubles are read as exact rationals ([Q]); rounding is not
      modelled.  Residuals additionally range over [inf], [-inf] and [nan],
      because the selector starts from [np.inf].
    - Python exceptions are a value of [result]; a raise keeps every side
      effect performed so far, so the monad returns the state on both paths.
    - The callable under test, the data generator and the clock are
      parameters acting on an abstract world [W]; the first two may raise.
    - Every call of the generator and of the callable, and every reading
      of the clock, is recorded in the state, so that what the harness did
      can be stated without reference to how it is written. *)

From Stdlib Require Import ZArith QArith Qabs Lqa Lia String Bool List Sorted.
Import ListNotations.
Local Open Scope Z_scope.

(** ** Floating-point values with infinities *)

Module Float.

Inductive float : Type :=
| Fin (q : Q)
| PInf
| NInf
| NaN.

(** [np.inf] *)
Definition inf : float := PInf.

(** The literal [1e-6]. *)
Definition eps : Q := 1 # 1000000.

Definition Qlt_bool (x y : Q) : bool := negb (Qle_bool y x).

(** [x < y]; every comparison with [nan] is false. *)
Definition ltb (x y : float) : bool :=
  match x, y with
  | NaN, _ | _, NaN => false
  | Fin a, Fin b => Qlt_bool a b
  | Fin _, PInf => true
  | Fin _, NInf => false
  | PInf, _ => false
  | NInf, NInf => false
  | NInf, _ => true
  end.

(** [x - y] *)
Definition sub (x y : float) : float :=
  match x, y with
  | NaN, _ | _, NaN => NaN
  | Fin a, Fin b => Fin (a - b)
  | Fin _, PInf => NInf
  | Fin _, NInf => PInf
  | PInf, PInf => NaN
  | PInf, _ => PInf
  | NInf, NInf => NaN
  | NInf, _ => NInf
  end.

End Float.

(** ** Python exceptions and the effect monad *)

Inductive exn : Type :=
| Exception (msg : string)
| ValueError (msg : string)
| IndexError (msg : string)
| FitError (msg : string).

Inductive result (A : Type) : Type :=
| Ok (a : A)
| Raise (e : exn).
Arguments Ok {A} a.
Arguments Raise {A} e.

(** A computation over a state [S]: it yields a value or raises, and in both
    cases hands back the state it reached. *)
Definition M (S A : Type) : Type := S -> result A * S.

Definition ret {S A} (a : A) : M S A := fun s => (Ok a, s).

Definition raise {S A} (e : exn) : M S A := fun s => (Raise e, s).

Definition bind {S A B} (m : M S A) (k : A -> M S B) : M S B :=
  fun s =>
    match m s with
    | (Ok a, s') => k a s'
    | (Raise e, s') => (Raise e, s')
    end.

Definition lift_result {S A} (r : result A) : M S A := fun s => (r, s).

Declare Scope monad_scope.
Delimit Scope monad_scope with monad.
Notation "x <- m ;; k" := (bind m (fun x => k))
  (at level 61, m at next level, right associativity) : monad_scope.
Notation "' pat <- m ;; k" := (bind m (fun x => match x with pat => k end))
  (at level 61, pat pattern, m at next level, right associativity) : monad_scope.
Notation "m ;; k" := (bind m (fun _ => k))
  (at level 61, right associativity) : monad_scope.
Local Open Scope monad_scope.

(** ** The numpy routines used by the harness *)

Module Numpy.

(** [np.arange(0, num)] as doubles. *)
Definition arange (num : Z) : list Q :=
  map (fun i => inject_Z (Z.of_nat i)) (seq 0 (Z.to_nat num)).

(** [y[-1] = v] *)
Definition set_last {A} (v : A) (y : list A) : list A :=
  match y with
  | [] => []
  | _ :: _ => removelast y ++ [v]
  end.

(** [np.linspace(start, stop, num)] with the default [endpoint=True]:
    [num] samples [start + i * step], [step = (stop - start) / (num - 1)],
    the last one set to [stop]; a negative [num] is a [ValueError] (its
    message, which quotes [num], is abridged). *)
Definition linspace (start stop num : Z) : result (list Q) :=
  if num <? 0 then
    Raise (ValueError "Number of samples must be non-negative.")
  else
    let div := num - 1 in
    let delta := (inject_Z stop - inject_Z start)%Q in
    let y := arange num in
    let y :=
      if 0 <? div then
        let step := (delta / inject_Z div)%Q in
        map (fun v => (v * step)%Q) y
      else
        map (fun v => (v * delta)%Q) y in
    let y := map (fun v => (v + inject_Z start)%Q) y in
    Ok (if 1 <? num then set_last (inject_Z stop) y else y).

(** Conversion of one double to [int64]: truncation toward zero.  Values
    beyond the [int64] range are outside the model; the source leaves that
    check as a TODO. *)
Definition trunc (q : Q) : Z := Z.quot (Qnum q) (Z.pos (Qden q)).

(** [a.astype('int64')] *)
Definition astype_int64 (a : list Q) : list Z := map trunc a.

Definition Qmin (x y : Q) : Q := if Qle_bool x y then x else y.

(** [np.min(a)]; an empty argument is a [ValueError]. *)
Definition min (a : list Q) : result Q :=
  match a with
  | [] => Raise (ValueError "zero-size array to reduction operation minimum which has no identity")
  | x :: xs => Ok (fold_left Qmin xs x)
  end.

(** The array [a] with [v] in slot [i]. *)
Fixpoint set_nth {A} (a : list A) (i : nat) (v : A) : list A :=
  match a, i with
  | [], _ => []
  | _ :: t, O => v :: t
  | h :: t, S i' => h :: set_nth t i' v
  end.

(** [a[i] = v] for a non-negative index; past the end it is an
    [IndexError]. *)
Definition setitem {A} (a : list A) (i : nat) (v : A) : result (list A) :=
  if (i <? length a)%nat then Ok (set_nth a i v)
  else Raise (IndexError "index is out of bounds").

End Numpy.

(** ** The pipeline *)

Section Pipeline.

(** The outside world the callable, the generator and the clock act on,
    and the type of generated inputs. *)
Context {W D : Type}.

(** Modelled from the spec: the growth models of [big_o.complexities],
    which is not among the sources.  A model class [Class], its fitted
    coefficients [Coeff], and the [fit] method: a least-squares regression
    that is a function of the class and the observations, returns the
    residual and the coefficients it stores on the instance, or raises. *)
Context {Class Coeff : Type}.
Variable fit : Class -> list Z -> list Q -> result (Coeff * Float.float).

(** [timeit.default_timer], i.e. [time.perf_counter]. *)
Variable perf_counter : W -> Q * W.

(** A model instance: a heap object with an identity, its class, and the
    [coeff] attribute ([None] until [fit] is called). *)
Record instance : Type := mkInstance {
  inst_id : nat;
  inst_class : Class;
  inst_coeff : option Coeff
}.

(** What the pipeline does to its collaborators, in order. *)
Inductive event : Type :=
| EGen (n : Z) (d : D)           (* data_generator(n) returned d *)
| EGenRaise (n : Z) (e : exn)    (* data_generator(n) raised e *)
| ETimer (t : Q)                 (* the clock was read and showed t *)
| ECall (d : D)                  (* func(d) returned *)
| ECallRaise (d : D) (e : exn).  (* func(d) raised e *)

(** Lines handed to [print]. *)
Inductive line : Type :=
| LMeasure (n : Z) (t : Q)                  (* f'n={n}: {execution_time[i]}' *)
| LFit (inst : instance) (r : Float.float). (* inst, '(r={:f})'.format(r) *)

Record state : Type := mkState {
  world : W;
  next_id : nat;
  calls : list event;
  stdout : list line
}.

(** The [fitted] dictionary: keys are model instances (hashed by object
    identity) or, for the raw data, strings.  A Python dictionary keeps
    insertion order, an assignment to a present key keeps the key and
    replaces its value. *)
Inductive key : Type :=
| KInst (inst : instance)
| KStr (name : string).

Inductive value : Type :=
| VRes (residuals : Float.float)
| VSizes (ns : list Z)
| VTimes (time : list Q).

Definition key_eqb (k1 k2 : key) : bool :=
  match k1, k2 with
  | KInst a, KInst b => Nat.eqb (inst_id a) (inst_id b)
  | KStr a, KStr b => String.eqb a b
  | _, _ => false
  end.

Definition dict : Type := list (key * value).

(** [d[k] = v] *)
Fixpoint dict_set (d : dict) (k : key) (v : value) : dict :=
  match d with
  | [] => [(k, v)]
  | (k', v') :: d' =>
      if key_eqb k' k then (k', v) :: d' else (k', v') :: dict_set d' k v
  end.

(** [d.get(k)] *)
Fixpoint dict_get (d : dict) (k : key) : option value :=
  match d with
  | [] => None
  | (k', v') :: d' => if key_eqb k' k then Some v' else dict_get d' k
  end.

Definition is_model_key (k : key) : bool :=
  match k with KInst _ => true | KStr _ => false end.

(** *** big_o/logging.py *)

Definition print (l : line) : M state unit :=
  fun s => (Ok tt, mkState (world s) (next_id s) (calls s) (stdout s ++ [l])).

(** [log]: positional arguments go to [print]; the keyword [verbose] is
    mandatory and is removed before printing. *)
Definition log (args : line) (kw_verbose : option bool) : M state unit :=
  match kw_verbose with
  | None => raise (Exception "'verbose' value not provided for 'log' function")
  | Some verbose => if verbose then print args else ret tt
  end.

(** *** timeit.Timer *)

Definition timer : M state Q :=
  fun s =>
    let (t, w) := perf_counter (world s) in
    (Ok t, mkState w (next_id s) (calls s ++ [ETimer t]) (stdout s)).

(** [for _ in range(k): stmt()] *)
Fixpoint run_times (k : nat) (stmt : M state unit) : M state unit :=
  match k with
  | O => ret tt
  | S k' => stmt ;; run_times k' stmt
  end.

(** [Timer.timeit(number)] *)
Definition Timer_timeit (stmt : M state unit) (number : Z) : M state Q :=
  t0 <- timer ;;
  run_times (Z.to_nat number) stmt ;;
  t1 <- timer ;;
  ret (t1 - t0)%Q.

Fixpoint Timer_repeat_loop (k : nat) (stmt : M state unit) (number : Z)
  : M state (list Q) :=
  match k with
  | O => ret []
  | S k' =>
      t <- Timer_timeit stmt number ;;
      r <- Timer_repeat_loop k' stmt number ;;
      ret (t :: r)
  end.

(** [Timer.repeat(repeat, number)] *)
Definition Timer_repeat (stmt : M state unit) (repeat number : Z)
  : M state (list Q) :=
  Timer_repeat_loop (Z.to_nat repeat) stmt number.

(** *** measure_execution_time *)

Section Harness.

(** The callable under test and the data generator.  Both act on the
    world and either may raise; what [func] returns is discarded by the
    timer. *)
Variable func : D -> W -> result unit * W.
Variable data_generator : Z -> W -> result D * W.

(** [func_wrapper.__init__]: [self.data = data_generator(n)] *)
Definition func_wrapper (n : Z) : M state D :=
  fun s =>
    match data_generator n (world s) with
    | (Ok d, w) =>
        (Ok d, mkState w (next_id s) (calls s ++ [EGen n d]) (stdout s))
    | (Raise e, w) =>
        (Raise e, mkState w (next_id s) (calls s ++ [EGenRaise n e]) (stdout s))
    end.

(** [func_wrapper.__call__]: [func(self.data)] *)
Definition func_wrapper_call (data : D) : M state unit :=
  fun s =>
    match func data (world s) with
    | (Ok _, w) =>
        (Ok tt, mkState w (next_id s) (calls s ++ [ECall data]) (stdout s))
    | (Raise e, w) =>
        (Raise e,
         mkState w (next_id s) (calls s ++ [ECallRaise data e]) (stdout s))
    end.

(** The body of [for i, n in enumerate(ns)], over the sizes still to
    visit, [i] being the index of the first of them. *)
Fixpoint measure_loop (n_repeats n_timings : Z) (verbose : bool)
    (i : nat) (ns : list Z) (execution_time : list Q) : M state (list Q) :=
  match ns with
  | [] => ret execution_time
  | n :: ns' =>
      data <- func_wrapper n ;;
      measurements <- Timer_repeat (func_wrapper_call data) n_timings n_repeats ;;
      m <- lift_result (Numpy.min measurements) ;;
      execution_time <- lift_result (Numpy.setitem execution_time i m) ;;
      log (LMeasure n m) (Some verbose) ;;
      measure_loop n_repeats n_timings verbose (S i) ns' execution_time
  end.

(** [np.empty(n)]: [n] slots of unspecified content. *)
Definition np_empty (n : Z) : list Q := repeat 0%Q (Z.to_nat n).

Definition measure_execution_time
    (min_n max_n n_measures n_repeats n_timings : Z) (verbose : bool)
  : M state (list Z * list Q) :=
  ns <- lift_result (Numpy.linspace min_n max_n n_measures) ;;
  let ns := Numpy.astype_int64 ns in
  let execution_time := np_empty n_measures in
  execution_time <- measure_loop n_repeats n_timings verbose 0 ns execution_time ;;
  ret (ns, execution_time).

End Harness.

(** *** infer_big_o_class *)

(** [class_()]: a fresh object, [coeff] not yet set. *)
Definition new_instance (class_ : Class) : M state instance :=
  fun s =>
    (Ok (mkInstance (next_id s) class_ None),
     mkState (world s) (S (next_id s)) (calls s) (stdout s)).

(** [inst.fit(ns, time)]: stores the coefficients on the instance and
    returns the residual.  The instance is returned as it is after the
    call; it is the same object (same [inst_id]). *)
Definition inst_fit (inst : instance) (ns : list Z) (time : list Q)
  : M state (instance * Float.float) :=
  ' (coeff, residuals) <- lift_result (fit (inst_class inst) ns time) ;;
  ret (mkInstance (inst_id inst) (inst_class inst) (Some coeff), residuals).

(** The test of the selection loop and the two assignments it guards. *)
Definition update_best (inst : instance) (residuals : Float.float)
    (best_class : option instance) (best_residuals : Float.float)
  : option instance * Float.float :=
  if Float.ltb residuals (Float.sub best_residuals (Float.Fin Float.eps))
  then (Some inst, residuals)
  else (best_class, best_residuals).

(** [for class_ in classes: ...] with the loop variables as arguments. *)
Fixpoint infer_loop (ns : list Z) (time : list Q) (verbose : bool)
    (classes : list Class)
    (best_class : option instance) (best_residuals : Float.float)
    (fitted : dict) : M state (option instance * dict) :=
  match classes with
  | [] => ret (best_class, fitted)
  | class_ :: classes' =>
      inst <- new_instance class_ ;;
      ' (inst, residuals) <- inst_fit inst ns time ;;
      let fitted := dict_set fitted (KInst inst) (VRes residuals) in
      let (best_class, best_residuals) :=
        update_best inst residuals best_class best_residuals in
      log (LFit inst residuals) (Some verbose) ;;
      infer_loop ns time verbose classes' best_class best_residuals fitted
  end.

Definition infer_big_o_class (ns : list Z) (time : list Q)
    (classes : list Class) (verbose : bool)
  : M state (option instance * dict) :=
  infer_loop ns time verbose classes None Float.inf [].

(** *** big_o *)

Definition big_o (func : D -> W -> result unit * W)
    (data_generator : Z -> W -> result D * W)
    (min_n max_n n_measures n_repeats n_timings : Z)
    (classes : list Class) (verbose return_raw_data : bool)
  : M state (option instance * dict) :=
  ' (ns, time) <- measure_execution_time func data_generator
                    min_n max_n n_measures n_repeats n_timings verbose ;;
  ' (best, fitted) <- infer_big_o_class ns time classes verbose ;;
  let fitted :=
    if return_raw_data then
      dict_set (dict_set fitted (KStr "measures") (VSizes ns))
               (KStr "times") (VTimes time)
    else fitted in
  ret (best, fitted).

(** The orchestrator as the specification words it: the harness, then the
    selector, nothing else. *)
Definition harness_then_selector
    (func : D -> W -> result unit * W)
    (data_generator : Z -> W -> result D * W)
    (min_n max_n n_measures n_repeats n_timings : Z)
    (classes : list Class) (verbose : bool)
  : M state (option instance * dict) :=
  bind (measure_execution_time func data_generator
          min_n max_n n_measures n_repeats n_timings verbose)
       (fun obs => infer_big_o_class (fst obs) (snd obs) classes verbose).

End Pipeline.

Arguments instance : clear implicits.
Arguments event : clear implicits.
Arguments state : clear implicits.
Arguments key : clear implicits.
Arguments dict : clear implicits.

(** ** A concrete world, for evaluating the pipeline *)

Module Demo.

(** The clock reading and the durations of the calls still to come; when
    the list runs out a call takes one second. *)
Definition World : Type := Q * list Q.

Definition perf_counter (w : World) : Q * World := (fst w, w).

(** A callable whose running time is whatever the world says. *)
Definition func (d : Z) (w : World) : result unit * World :=
  match snd w with
  | [] => (Ok tt, ((fst w + 1)%Q, []))
  | c :: cs => (Ok tt, ((fst w + c)%Q, cs))
  end.

(** A callable that raises once the world has no duration left for it. *)
Definition flaky (d : Z) (w : World) : result unit * World :=
  match snd w with
  | [] => (Raise (Exception "out of durations"), w)
  | c :: cs => (Ok tt, ((fst w + c)%Q, cs))
  end.

(** [datagen.n_] *)
Definition n_ (n : Z) (w : World) : result Z * World := (Ok n, w).

(** Model classes that report a prescribed residual. *)
Definition fit (class_ : Float.float) (ns : list Z) (time : list Q)
  : result (unit * Float.float) := Ok (tt, class_).

(** Model classes of which some cannot be fitted. *)
Definition fit_or_raise (class_ : option Float.float) (ns : list Z) (time : list Q)
  : result (unit * Float.float) :=
  match class_ with
  | Some r => Ok (tt, r)
  | None => Raise (FitError "rank-deficient")
  end.

Definition St : Type := state World Z Float.float unit.

Definition s0 (durations : list Q) : St :=
  mkState (0%Q, durations) 0%nat [] [].

(** A residual of [k] tenths of [1e-6]. *)
Definition residual (k : Z) : Float.float := Float.Fin (k # 10000000).

(** The three entry points in this world, silent, from the initial state. *)
Abbreviation measure min_n max_n n_measures n_repeats n_timings durations :=
  (measure_execution_time (Class:=Float.float) (Coeff:=unit)
     perf_counter func n_
     min_n max_n n_measures n_repeats n_timings false (s0 durations)).

Abbreviation infer classes :=
  (infer_big_o_class (W:=World) (D:=Z) fit [100; 200] [1; 2]%Q classes false (s0 [])).

Abbreviation estimate min_n max_n n_measures classes return_raw_data :=
  (big_o fit perf_counter func n_ min_n max_n n_measures 1 1
         classes false return_raw_data (s0 [])).

End Demo.

(** ** Vocabulary of the properties *)

(** A callable that returns normally on every input, in every world. *)
Definition returns_normally {W A B} (f : A -> W -> result B * W) : Prop :=
  forall a w, exists b w', f a w = (Ok b, w').

Section Vocabulary.

Context {D Class Coeff : Type}.

(** *** Sampling plan *)

(** The [i]-th of [n_measures] evenly spaced points of the real interval
    from [min_n] to [max_n]. *)
Definition even_point (min_n max_n n_measures : Z) (i : nat) : Q :=
  (inject_Z min_n
   + inject_Z (Z.of_nat i) * (inject_Z (max_n - min_n) / inject_Z (n_measures - 1)))%Q.

(** The sizes such a plan yields once each point is cut to an integer. *)
Definition even_sizes (min_n max_n n_measures : Z) : list Z :=
  map (fun i => Numpy.trunc (even_point min_n max_n n_measures i))
      (seq 0 (Z.to_nat n_measures)).

Definition strictly_increasing (ns : list Z) : Prop := StronglySorted Z.lt ns.

Definition nondecreasing (ns : list Z) : Prop := StronglySorted Z.le ns.

(** *** Timing rounds *)

(** One timing round on input [d], seen from outside: the clock is read,
    the callable runs [n_repeats] times on [d], the clock is read again. *)
Definition round_events (d : D) (n_repeats : Z) (r : Q * Q) : list (event D) :=
  ETimer (fst r) :: repeat (ECall d) (Z.to_nat n_repeats) ++ [ETimer (snd r)].

(** The total time of a round: the difference of its two readings. *)
Definition round_total (r : Q * Q) : Q := (snd r - fst r)%Q.

(** Everything that happens for one size [n]: the input is generated once,
    then come the rounds, all on that input. *)
Definition size_events (n_repeats : Z) (nm : Z * (D * list (Q * Q)))
  : list (event D) :=
  EGen (fst nm) (fst (snd nm))
  :: flat_map (round_events (fst (snd nm)) n_repeats) (snd (snd nm)).

Definition is_minimum (x : Q) (l : list Q) : Prop :=
  In x l /\ Forall (fun y => (x <= y)%Q) l.

(** *** Selection *)

(** The entry a candidate leaves in [fitted]. *)
Definition entry (e : instance Class Coeff * Float.float)
  : key Class Coeff * value :=
  (KInst (fst e), VRes (snd e)).

(** The residual recorded for a model instance. *)
Definition residual_of (fitted : dict Class Coeff) (inst : instance Class Coeff)
  : option Float.float :=
  match dict_get fitted (KInst inst) with
  | Some (VRes r) => Some r
  | _ => None
  end.

(** The residual the selector compares against: that of the current best,
    [inf] while there is none. *)
Definition best_residual (fitted : dict Class Coeff)
    (best : option (instance Class Coeff)) : option Float.float :=
  match best with
  | None => Some Float.inf
  | Some b => residual_of fitted b
  end.

(** [r] is lower than [best] by more than the epsilon. *)
Definition lower_by_more_than_eps (r best : Float.float) : Prop :=
  Float.ltb r (Float.sub best (Float.Fin Float.eps)) = true.

(** Two residuals are within the epsilon of each other. *)
Definition within_eps (r1 r2 : Float.float) : Prop :=
  match r1, r2 with
  | Float.Fin a, Float.Fin b => (Qabs (a - b) <= Float.eps)%Q
  | _, _ => False
  end.

(** [r1 <= r2 + 1e-6] on finite residuals. *)
Definition at_most_eps_above (r1 r2 : Float.float) : Prop :=
  match r1, r2 with
  | Float.Fin a, Float.Fin b => (a <= b + Float.eps)%Q
  | _, _ => False
  end.

(** A model instance without its address: which candidate it is, counted
    from the first object the invocation allocated, its class and its
    fitted state. *)
Definition candidate_view (base : nat) (inst : instance Class Coeff)
  : nat * Class * option Coeff :=
  ((inst_id inst - base)%nat, inst_class inst, inst_coeff inst).

Definition entry_view (base : nat) (e : instance Class Coeff * Float.float)
  : (nat * Class * option Coeff) * Float.float :=
  (candidate_view base (fst e), snd e).

Definition key_view (base : nat) (k : key Class Coeff)
  : (nat * Class * option Coeff) + string :=
  match k with
  | KInst inst => inl (candidate_view base inst)
  | KStr name => inr name
  end.

Definition outcome_view (base : nat)
    (out : option (instance Class Coeff) * dict Class Coeff)
  : option (nat * Class * option Coeff)
    * list (((nat * Class * option Coeff) + string) * value) :=
  (option_map (candidate_view base) (fst out),
   map (fun kv => (key_view base (fst kv), snd kv)) (snd out)).

Definition result_map {A B} (f : A -> B) (r : result A) : result B :=
  match r with
  | Ok a => Ok (f a)
  | Raise e => Raise e
  end.

(** What the loop of the selector computes, as a function of the [fit]
    results alone: the instances in allocation order with their residuals,
    and the running best folded over them. *)
Fixpoint fit_entries
    (fit : Class -> list Z -> list Q -> result (Coeff * Float.float))
    (ns : list Z) (time : list Q) (id : nat) (classes : list Class)
  : result (list (instance Class Coeff * Float.float)) :=
  match classes with
  | [] => Ok []
  | c :: cs =>
      match fit c ns time with
      | Raise e => Raise e
      | Ok (co, r) =>
          match fit_entries fit ns time (S id) cs with
          | Raise e => Raise e
          | Ok es => Ok ((mkInstance id c (Some co), r) :: es)
          end
      end
  end.

(** Every model key of [fitted] is an object allocated before [bound]. *)
Definition ids_below (bound : nat) (fitted : dict Class Coeff) : Prop :=
  Forall (fun kv => match fst kv with
                    | KInst inst => (inst_id inst < bound)%nat
                    | KStr _ => True
                    end) fitted.

(** A reading of "of two candidates with residuals within the epsilon of
    each other the earlier one is kept", in its weakest form: the later
    of the two is not the one returned. *)
Definition later_of_close_pair_not_best
    (fitted : dict Class Coeff) (best : option (instance Class Coeff)) : Prop :=
  forall i j a b ra rb,
    (i < j)%nat ->
    nth_error fitted i = Some (KInst a, VRes ra) ->
    nth_error fitted j = Some (KInst b, VRes rb) ->
    within_eps ra rb ->
    best <> Some b.

Definition running_best
    (es : list (instance Class Coeff * Float.float))
    (acc : option (instance Class Coeff) * Float.float)
  : option (instance Class Coeff) * Float.float :=
  fold_left (fun acc e => update_best (fst e) (snd e) (fst acc) (snd acc)) es acc.

End Vocabulary.

(** ** big_o/datagen.py *)

Module Datagen.

Section Generators.

(** The state of the [random] module, and what [random] draws from a
    non-empty range in a given state. *)
Context {G : Type}.
Variable draw : G -> Z -> Z -> Z * G.

(** [random.randint(a, b)], i.e. [randrange(a, b + 1)]: an empty range is
    a [ValueError], raised before anything is drawn. *)
Definition randint (a b : Z) : M G Z :=
  fun g =>
    if b <? a then (Raise (ValueError "empty range for randrange()"), g)
    else let (x, g') := draw g a b in (Ok x, g').

(** The list comprehension [[body for _ in range(k)]]. *)
Fixpoint comprehension {A} (k : nat) (body : M G A) : M G (list A) :=
  match k with
  | O => ret []
  | S k' =>
      x <- body ;;
      xs <- comprehension k' body ;;
      ret (x :: xs)
  end.

(** [list(range(a, b))] *)
Definition range_list (a b : Z) : list Z :=
  map (fun i => a + Z.of_nat i) (seq 0 (Z.to_nat (b - a))).

(** [n_] *)
Definition n_ (n : Z) : Z := n.

(** [range_n(n, start)]: the closure [make_single] it returns. *)
Definition range_n (n start : Z) : unit -> M G (list Z) :=
  fun _ => ret (range_list start (start + n)).

(** [integers(n, min_, max_)]: the closure [make_single] it returns. *)
Definition integers (n min_ max_ : Z) : unit -> M G (list Z) :=
  fun _ => comprehension (Z.to_nat n) (randint min_ max_).

(** [large_integers(n)]: the closure [make_single] it returns. *)
Definition large_integers (n : Z) : unit -> M G (list Z) :=
  fun _ =>
    comprehension (Z.to_nat n)
      (a <- randint (-50) 50 ;;
       b <- randint 0 10000 ;;
       ret (a * 1000000 + b)).

(** A generator object made by [datagen(single_data_maker, n_cases)].  Until
    the first [next] none of its body has run; from then on it holds
    [data_cases] and what the running [for] loop has still to yield. *)
Inductive generator (A : Type) : Type :=
| Created (single_data_maker : unit -> M G A) (n_cases : Z)
| Cycling (data_cases pending : list A).
Arguments Created {A} single_data_maker n_cases.
Arguments Cycling {A} data_cases pending.

(** [datagen(single_data_maker, n_cases)] *)
Definition datagen {A} (single_data_maker : unit -> M G A) (n_cases : Z)
  : generator A :=
  Created single_data_maker n_cases.

(** Running the body inside [while True] up to the next [yield]: the [for]
    loop yields its next item; when it is exhausted the [while] loop
    starts it over.  [fuel] bounds how often the [while] loop may start
    over without reaching a [yield]; [None] means the bound was hit. *)
Fixpoint resume {A} (fuel : nat) (data_cases pending : list A) {struct fuel}
  : option (A * generator A) :=
  match pending with
  | data :: pending' => Some (data, Cycling data_cases pending')
  | [] =>
      match fuel with
      | O => None
      | S fuel' => resume fuel' data_cases data_cases
      end
  end.

(** [next(g)]: the item yielded and the generator as it is afterwards.  The
    first call runs the comprehension that fills [data_cases]. *)
Definition next {A} (fuel : nat) (g : generator A)
  : M G (option (A * generator A)) :=
  match g with
  | Created single_data_maker n_cases =>
      data_cases <- comprehension (Z.to_nat n_cases) (single_data_maker tt) ;;
      ret (resume fuel data_cases data_cases)
  | Cycling data_cases pending => ret (resume fuel data_cases pending)
  end.

(** [[next(g) for _ in range(k)]] *)
Fixpoint take {A} (fuel : nat) (k : nat) (g : generator A)
  : M G (option (list A)) :=
  match k with
  | O => ret (Some [])
  | S k' =>
      r <- next fuel g ;;
      match r with
      | None => ret None
      | Some (x, g') =>
          r' <- take fuel k' g' ;;
          ret (option_map (cons x) r')
      end
  end.

End Generators.

Arguments Created {G A} single_data_maker n_cases.
Arguments Cycling {G A} data_cases pending.

End Datagen.

(** ** big_o/plotting.py *)

Module Plotting.

(** The calls made to [matplotlib.pyplot], in order. *)
Inductive pyplot_call : Type :=
| Ylim (bottom top : Q)
| Scatter (ns : list Z) (time : list Q)
| Plot (ns : list Z) (time : list Q)
| Show.

Definition pyplot (c : pyplot_call) : M (list pyplot_call) unit :=
  fun s => (Ok tt, s ++ [c]).

(** The builtin [min]: the first least item; an empty argument is a
    [ValueError]. *)
Definition builtin_min (l : list Q) : result Q :=
  match l with
  | [] => Raise (ValueError "min() arg is an empty sequence")
  | x :: xs =>
      Ok (fold_left (fun m y => if Float.Qlt_bool y m then y else m) xs x)
  end.

(** The builtin [max]: the first greatest item. *)
Definition builtin_max (l : list Q) : result Q :=
  match l with
  | [] => Raise (ValueError "max() arg is an empty sequence")
  | x :: xs =>
      Ok (fold_left (fun m y => if Float.Qlt_bool m y then y else m) xs x)
  end.

Definition plot (ns : list Z) (time : list Q) : M (list pyplot_call) unit :=
  min_time <- lift_result (builtin_min time) ;;
  max_time <- lift_result (builtin_max time) ;;
  hi <- lift_result (builtin_max time) ;;
  lo <- lift_result (builtin_min time) ;;
  let time_range := (hi - lo)%Q in
  let min_y := (min_time - (5 # 100) * time_range)%Q in
  let max_y := (max_time + (5 # 100) * time_range)%Q in
  pyplot (Ylim min_y max_y) ;;
  pyplot (Scatter ns time) ;;
  pyplot (Plot ns time) ;;
  pyplot Show.

End Plotting.

(** A world that is nothing but a monotonic clock: reading it takes a
    millisecond, running the callable on [d] takes [|d|] seconds. *)
Module DemoClock.

Definition now (w : Q) : Q := w.

Definition perf_counter (w : Q) : Q * Q := (w, (w + (1 # 1000))%Q).

Definition func (d : Z) (w : Q) : result unit * Q :=
  (Ok tt, (w + inject_Z (Z.abs d))%Q).

Definition n_ (n : Z) (w : Q) : result Z * Q := (Ok n, w).

End DemoClock.

(** A concrete [random]: a linear congruential state, reduced into the
    requested range. *)
Module DemoRandom.

Definition draw (g a b : Z) : Z * Z :=
  (a + g mod (b - a + 1), (g * 1103515245 + 12345) mod 2147483648).

End DemoRandom.

(** ** Vocabulary of the further properties *)

Section MoreVocabulary.

Context {W D Class Coeff : Type}.

(** The exception an event reports, if it is a raise. *)
Definition raised (ev : event D) : option exn :=
  match ev with
  | EGenRaise _ e | ECallRaise _ e => Some e
  | _ => None
  end.

(** No call in the trace raised. *)
Definition quiet (tr : list (event D)) : Prop :=
  Forall (fun ev => raised ev = None) tr.

(** The computation stops at the first raise of the generator or of the
    callable and hands that exception on: whatever it returns, the events
    it adds contain no raise, except possibly a last one, whose exception
    is then the outcome. *)
Definition stops_at_first_raise {A} (m : M (state W D Class Coeff) A) : Prop :=
  forall s r s',
    m s = (r, s') ->
    exists tr,
      calls s' = calls s ++ tr
      /\ (quiet tr
          \/ exists tr0 ev e,
               tr = tr0 ++ [ev] /\ quiet tr0
               /\ raised ev = Some e /\ r = Raise e).

Definition is_gen (ev : event D) : bool :=
  match ev with EGen _ _ => true | _ => false end.

Definition is_call (ev : event D) : bool :=
  match ev with ECall _ => true | _ => false end.

Definition is_timer (ev : event D) : bool :=
  match ev with ETimer _ => true | _ => false end.

Definition count (f : event D -> bool) (tr : list (event D)) : nat :=
  length (filter f tr).

(** Two states that differ at most in what was printed. *)
Definition same_but_stdout (s1 s2 : state W D Class Coeff) : Prop :=
  world s1 = world s2 /\ next_id s1 = next_id s2 /\ calls s1 = calls s2.

(** Two computations that cannot tell such states apart, and keep them so. *)
Definition print_blind {A} (m1 m2 : M (state W D Class Coeff) A) : Prop :=
  forall s1 s2,
    same_but_stdout s1 s2 ->
    fst (m1 s1) = fst (m2 s2) /\ same_but_stdout (snd (m1 s1)) (snd (m2 s2)).

(** A residual that can never be selected: [inf] or [nan]. *)
Definition never_selected (r : Float.float) : Prop :=
  r = Float.PInf \/ r = Float.NaN.

End MoreVocabulary.

(** ** Facts about the library routines *)

Section MonadFacts.

Context {S A B : Type}.

Lemma bind_ok (m : M S A) (k : A -> M S B) (s s' : S) (a : A) :
  m s = (Ok a, s') -> bind m k s = k a s'.
Proof. intros H. unfold bind. rewrite H. reflexivity. Qed.

Lemma bind_raise (m : M S A) (k : A -> M S B) (s s' : S) (e : exn) :
  m s = (Raise e, s') -> bind m k s = (Raise e, s').
Proof. intros H. unfold bind. rewrite H. reflexivity. Qed.

Lemma bind_ok_inv (m : M S A) (k : A -> M S B) (s s' : S) (b : B) :
  bind m k s = (Ok b, s') ->
  exists a s1, m s = (Ok a, s1) /\ k a s1 = (Ok b, s').
Proof.
  unfold bind. destruct (m s) as [[a|e] s1]; intros H.
  - exists a, s1. split; [reflexivity | exact H].
  - discriminate.
Qed.

End MonadFacts.

Section FloatFacts.

Import Float.

Lemma Qlt_bool_iff (x y : Q) : Qlt_bool x y = true <-> (x < y)%Q.
Proof.
  unfold Qlt_bool. rewrite negb_true_iff. split.
  - intros H. apply Qnot_le_lt. intros Hle.
    apply Qle_bool_iff in Hle. congruence.
  - intros H. destruct (Qle_bool y x) eqn:E; [|reflexivity].
    apply Qle_bool_iff in E. exfalso. apply (Qlt_not_le _ _ H E).
Qed.

Lemma Qlt_bool_false (x y : Q) : Qlt_bool x y = false <-> (y <= x)%Q.
Proof. unfold Qlt_bool. rewrite negb_false_iff. apply Qle_bool_iff. Qed.

Lemma ltb_sub_eps_fin (r b : Q) :
  ltb (Fin r) (sub (Fin b) (Fin eps)) = true <-> (r < b - eps)%Q.
Proof. simpl. apply Qlt_bool_iff. Qed.

End FloatFacts.

Section NumpyFacts.

Import Numpy.

(** Truncation does not depend on how the rational is written. *)
Lemma trunc_Qeq (p q : Q) : (p == q)%Q -> trunc p = trunc q.
Proof.
  unfold Qeq, trunc. destruct p as [a b], q as [c d]. simpl. intros H.
  rewrite <- (Z.quot_mul_cancel_r a (Z.pos b) (Z.pos d)) by lia.
  rewrite <- (Z.quot_mul_cancel_r c (Z.pos d) (Z.pos b)) by lia.
  rewrite H. f_equal. lia.
Qed.

Lemma inject_Z_sub (x y : Z) : inject_Z (x - y) = (inject_Z x - inject_Z y)%Q.
Proof. unfold Z.sub. rewrite inject_Z_plus, inject_Z_opp. reflexivity. Qed.

Lemma trunc_inject_Z (z : Z) : trunc (inject_Z z) = z.
Proof. unfold trunc. simpl. apply Z.quot_1_r. Qed.

Lemma trunc_ratio (a d : Z) :
  0 < d -> trunc (inject_Z a / inject_Z d) = Z.quot a d.
Proof.
  intros Hd. destruct d as [|p|p]; try lia.
  rewrite (trunc_Qeq _ (a # p)).
  - reflexivity.
  - symmetry. apply Qmake_Qdiv.
Qed.

Lemma set_last_snoc {A} (v x : A) (l : list A) : set_last v (l ++ [x]) = l ++ [v].
Proof.
  unfold set_last. destruct (l ++ [x]) eqn:E.
  - destruct l; discriminate.
  - rewrite <- E. rewrite removelast_last. reflexivity.
Qed.

Lemma set_nth_length {A} (a : list A) (i : nat) (v : A) :
  length (set_nth a i v) = length a.
Proof.
  revert i. induction a as [|h t IH]; intros [|i]; simpl; auto.
Qed.

Lemma set_nth_firstn {A} (a : list A) (i : nat) (v : A) :
  (i < length a)%nat -> firstn (S i) (set_nth a i v) = firstn i a ++ [v].
Proof.
  revert i. induction a as [|h t IH]; intros [|i] Hi; simpl in *; try lia.
  - reflexivity.
  - f_equal. apply IH. lia.
Qed.

Lemma setitem_in_range {A} (a : list A) (i : nat) (v : A) :
  (i < length a)%nat -> setitem a i v = Ok (set_nth a i v).
Proof.
  intros H. unfold setitem.
  destruct (Nat.ltb_spec i (length a)); [reflexivity | lia].
Qed.

Lemma Qmin_cases (x y : Q) :
  (Qmin x y = x /\ (x <= y)%Q) \/ (Qmin x y = y /\ (y <= x)%Q).
Proof.
  unfold Qmin. destruct (Qle_bool x y) eqn:E.
  - left. split; [reflexivity | now apply Qle_bool_iff].
  - right. split; [reflexivity|].
    apply Qlt_le_weak, Qnot_le_lt. intros H.
    apply Qle_bool_iff in H. congruence.
Qed.

Lemma fold_Qmin_minimum (xs : list Q) (x : Q) :
  is_minimum (fold_left Qmin xs x) (x :: xs).
Proof.
  revert x. induction xs as [|y ys IH]; intros x; simpl.
  - split; [now left | constructor; [apply Qle_refl | constructor]].
  - destruct (IH (Qmin x y)) as [Hin Hall].
    inversion Hall as [|? ? Hhd Htl]; subst.
    destruct (Qmin_cases x y) as [[E Hle] | [E Hle]]; rewrite E in *.
    + split.
      * destruct Hin as [Hin | Hin]; [now left | right; now right].
      * constructor; [exact Hhd|].
        constructor; [eapply Qle_trans; eassumption | exact Htl].
    + split.
      * destruct Hin as [Hin | Hin]; [right; now left | right; now right].
      * constructor; [eapply Qle_trans; eassumption|].
        constructor; [exact Hhd | exact Htl].
Qed.

(** [np.min] returns the least element of a non-empty array. *)
Lemma min_spec (a : list Q) (m : Q) : min a = Ok m -> is_minimum m a.
Proof.
  destruct a as [|x xs]; simpl; intros H; [discriminate|].
  injection H as <-. apply fold_Qmin_minimum.
Qed.

Lemma linspace_negative (start stop num : Z) :
  num < 0 ->
  linspace start stop num
  = Raise (ValueError "Number of samples must be non-negative.").
Proof.
  intros H. unfold linspace.
  destruct (Z.ltb_spec num 0); [reflexivity | lia].
Qed.

Lemma even_point_first (min_n max_n n : Z) :
  trunc (even_point min_n max_n n 0) = min_n.
Proof.
  rewrite (trunc_Qeq _ (inject_Z min_n)); [apply trunc_inject_Z|].
  unfold even_point. simpl. ring.
Qed.

Lemma even_point_ratio (min_n max_n n : Z) (i : nat) :
  1 < n ->
  trunc (even_point min_n max_n n i)
  = Z.quot (min_n * (n - 1) + Z.of_nat i * (max_n - min_n)) (n - 1).
Proof.
  intros Hn. rewrite <- trunc_ratio by lia.
  apply trunc_Qeq. unfold even_point.
  rewrite inject_Z_plus, !inject_Z_mult.
  assert (Hd : ~ (inject_Z (n - 1) == 0)%Q).
  { change 0%Q with (inject_Z 0). rewrite inject_Z_injective. lia. }
  field. exact Hd.
Qed.

Lemma even_point_last (min_n max_n n : Z) :
  1 < n -> trunc (even_point min_n max_n n (Z.to_nat (n - 1))) = max_n.
Proof.
  intros Hn. rewrite even_point_ratio by lia.
  rewrite Z2Nat.id by lia.
  replace (min_n * (n - 1) + (n - 1) * (max_n - min_n)) with (max_n * (n - 1)) by ring.
  apply Z.quot_mul. lia.
Qed.

(** The sizes the harness visits: [linspace] followed by the conversion to
    integers yields the truncated evenly spaced points. *)
Lemma linspace_int64 (min_n max_n n : Z) :
  0 <= n ->
  exists y, linspace min_n max_n n = Ok y
            /\ astype_int64 y = even_sizes min_n max_n n.
Proof.
  intros Hn. unfold linspace.
  destruct (Z.ltb_spec n 0) as [|_]; [lia|].
  eexists. split; [reflexivity|].
  unfold astype_int64, even_sizes, arange.
  destruct (Z.ltb_spec 1 n) as [H1|H1].
  - destruct (Z.ltb_spec 0 (n - 1)) as [_|]; [|lia].
    destruct (Z.to_nat n) as [|m] eqn:Em; [lia|].
    rewrite seq_S. simpl Nat.add.
    rewrite !map_app. simpl map. rewrite set_last_snoc.
    rewrite map_app. simpl map. rewrite trunc_inject_Z.
    f_equal.
    + rewrite !map_map. apply map_ext. intros i.
      apply trunc_Qeq. unfold even_point.
      rewrite (inject_Z_sub max_n min_n).
      assert (Hd : ~ (inject_Z (n - 1) == 0)%Q).
      { change 0%Q with (inject_Z 0). rewrite inject_Z_injective. lia. }
      field. exact Hd.
    + f_equal. replace m with (Z.to_nat (n - 1)) by lia.
      symmetry. apply even_point_last. lia.
  - assert (E : n = 0 \/ n = 1) by lia.
    destruct E as [-> | ->]; simpl; [reflexivity|].
    f_equal. apply trunc_Qeq. unfold even_point. simpl. ring.
Qed.

Lemma even_sizes_length (min_n max_n n : Z) :
  length (even_sizes min_n max_n n) = Z.to_nat n.
Proof. unfold even_sizes. rewrite length_map, length_seq. reflexivity. Qed.

Lemma even_sizes_first (min_n max_n n : Z) :
  0 < n -> hd_error (even_sizes min_n max_n n) = Some min_n.
Proof.
  intros Hn. unfold even_sizes.
  destruct (Z.to_nat n) as [|m] eqn:E; [lia|].
  simpl. rewrite even_point_first. reflexivity.
Qed.

Lemma even_sizes_last (min_n max_n n : Z) :
  1 < n -> last (even_sizes min_n max_n n) 0 = max_n.
Proof.
  intros Hn. unfold even_sizes.
  destruct (Z.to_nat n) as [|m] eqn:E; [lia|].
  rewrite seq_S, map_app. simpl. rewrite last_last.
  replace m with (Z.to_nat (n - 1)) by lia.
  apply even_point_last. exact Hn.
Qed.

Lemma StronglySorted_map_seq {A} (R : A -> A -> Prop) (f : nat -> A) (a n : nat) :
  (forall i j, (a <= i)%nat -> (i < j)%nat -> (j < a + n)%nat -> R (f i) (f j)) ->
  StronglySorted R (map f (seq a n)).
Proof.
  revert a. induction n as [|n IH]; intros a H; simpl.
  - constructor.
  - constructor.
    + apply IH. intros i j Hi Hij Hj. apply H; lia.
    + apply Forall_forall. intros x Hx.
      apply in_map_iff in Hx. destruct Hx as [j [<- Hj]].
      apply in_seq in Hj. apply H; lia.
Qed.

Lemma even_sizes_nondecreasing (min_n max_n n : Z) :
  min_n <= max_n -> nondecreasing (even_sizes min_n max_n n).
Proof.
  intros Hle. unfold nondecreasing, even_sizes.
  destruct (Z.ltb_spec 1 n) as [Hn|Hn].
  - apply StronglySorted_map_seq. intros i j _ Hij _.
    rewrite !even_point_ratio by lia.
    apply Z.quot_le_mono; [lia|]. nia.
  - destruct (Z.to_nat n) as [|[|m]] eqn:E; try lia; simpl;
      repeat constructor.
Qed.

Lemma even_sizes_strictly_increasing (min_n max_n n : Z) :
  0 <= min_n -> n - 1 <= max_n - min_n ->
  strictly_increasing (even_sizes min_n max_n n).
Proof.
  intros Hmin Hstep. unfold strictly_increasing, even_sizes.
  destruct (Z.ltb_spec 1 n) as [Hn|Hn].
  - apply StronglySorted_map_seq. intros i j _ Hij _.
    rewrite !even_point_ratio by lia.
    rewrite !Z.quot_div_nonneg by nia.
    apply Z.lt_le_trans
      with ((min_n * (n - 1) + Z.of_nat i * (max_n - min_n) + 1 * (n - 1)) / (n - 1)).
    + rewrite Z.div_add by lia. lia.
    + apply Z.div_le_mono; [lia|]. nia.
  - destruct (Z.to_nat n) as [|[|m]] eqn:E; try lia; simpl;
      repeat constructor.
Qed.

End NumpyFacts.

(** ** Facts about the timing harness *)

Section HarnessFacts.

Context {W D Class Coeff : Type}.
Variable perf_counter : W -> Q * W.
Variable func : D -> W -> result unit * W.
Variable data_generator : Z -> W -> result D * W.

Local Abbreviation St := (state W D Class Coeff).
Local Abbreviation call := (func_wrapper_call (Class:=Class) (Coeff:=Coeff) func).

(** *** What each step leaves behind when it returns *)

Lemma lift_result_ok {A} (r : result A) (a : A) (s s' : St) :
  lift_result r s = (Ok a, s') -> r = Ok a /\ s' = s.
Proof.
  unfold lift_result. intros H. injection H as -> ->. split; reflexivity.
Qed.

Lemma timer_ok (s s' : St) (t : Q) :
  timer perf_counter s = (Ok t, s') ->
  calls s' = calls s ++ [ETimer t] /\ next_id s' = next_id s.
Proof.
  unfold timer. destruct (perf_counter (world s)) as [t0 w].
  intros H. injection H as <- <-. split; reflexivity.
Qed.

Lemma func_wrapper_call_ok (d : D) (s s' : St) (u : unit) :
  call d s = (Ok u, s') ->
  calls s' = calls s ++ [ECall d] /\ next_id s' = next_id s.
Proof.
  unfold func_wrapper_call. destruct (func d (world s)) as [[x|e] w];
    intros H; [|discriminate].
  injection H as _ <-. split; reflexivity.
Qed.

Lemma func_wrapper_ok (n : Z) (d : D) (s s' : St) :
  func_wrapper data_generator n s = (Ok d, s') ->
  calls s' = calls s ++ [EGen n d] /\ next_id s' = next_id s.
Proof.
  unfold func_wrapper. destruct (data_generator n (world s)) as [[x|e] w];
    intros H; [|discriminate].
  injection H as <- <-. split; reflexivity.
Qed.

Lemma log_ok (l : line) (verbose : bool) (u : unit) (s s' : St) :
  log l (Some verbose) s = (Ok u, s') ->
  calls s' = calls s /\ next_id s' = next_id s.
Proof.
  destruct verbose; simpl; unfold print, ret; intros H;
    injection H as _ <-; split; reflexivity.
Qed.

Lemma run_times_ok (k : nat) (d : D) (s s' : St) (u : unit) :
  run_times k (call d) s = (Ok u, s') ->
  calls s' = calls s ++ repeat (ECall d) k /\ next_id s' = next_id s.
Proof.
  revert s. induction k as [|k IH]; intros s H; simpl in H.
  - unfold ret in H. injection H as _ <-.
    simpl. rewrite app_nil_r. split; reflexivity.
  - apply bind_ok_inv in H. destruct H as (x & s1 & Hc & Hr).
    apply func_wrapper_call_ok in Hc. destruct Hc as [C1 N1].
    apply IH in Hr. destruct Hr as [C2 N2].
    split; [|congruence].
    rewrite C2, C1, <- app_assoc. reflexivity.
Qed.

Lemma Timer_timeit_ok (d : D) (number : Z) (s s' : St) (t : Q) :
  Timer_timeit perf_counter (call d) number s = (Ok t, s') ->
  exists r,
    t = round_total r
    /\ calls s' = calls s ++ round_events d number r
    /\ next_id s' = next_id s.
Proof.
  unfold Timer_timeit. intros H.
  apply bind_ok_inv in H. destruct H as (t0 & s1 & H0 & H).
  apply bind_ok_inv in H. destruct H as (u & s2 & H1 & H).
  apply bind_ok_inv in H. destruct H as (t1 & s3 & H2 & H).
  unfold ret in H. injection H as <- <-.
  apply timer_ok in H0. destruct H0 as [C0 N0].
  apply run_times_ok in H1. destruct H1 as [C1 N1].
  apply timer_ok in H2. destruct H2 as [C2 N2].
  exists (t0, t1). split; [reflexivity|]. split; [|congruence].
  rewrite C2, C1, C0. unfold round_events. simpl.
  rewrite <- !app_assoc. reflexivity.
Qed.

Lemma Timer_repeat_loop_ok (k : nat) (d : D) (number : Z) (s s' : St)
    (ts : list Q) :
  Timer_repeat_loop perf_counter k (call d) number s = (Ok ts, s') ->
  exists rs,
    length rs = k
    /\ ts = map round_total rs
    /\ calls s' = calls s ++ flat_map (round_events d number) rs
    /\ next_id s' = next_id s.
Proof.
  revert s ts. induction k as [|k IH]; intros s ts H; simpl in H.
  - unfold ret in H. injection H as <- <-.
    exists []. simpl. rewrite app_nil_r. repeat split.
  - apply bind_ok_inv in H. destruct H as (t & s1 & Ht & H).
    apply bind_ok_inv in H. destruct H as (r & s2 & Hr & H).
    unfold ret in H. injection H as <- <-.
    apply Timer_timeit_ok in Ht. destruct Ht as (r0 & -> & C1 & N1).
    apply IH in Hr. destruct Hr as (rs & L & -> & C2 & N2).
    exists (r0 :: rs). simpl. repeat split; [lia | | congruence].
    rewrite C2, C1, <- app_assoc. reflexivity.
Qed.

Lemma measure_loop_spec (n_repeats n_timings : Z) (verbose : bool)
    (ns : list Z) (i : nat) (et et' : list Q) (s s' : St) :
  measure_loop perf_counter func data_generator
    n_repeats n_timings verbose i ns et s = (Ok et', s') ->
  (i + length ns <= length et)%nat ->
  exists (ms : list (D * list (Q * Q))) (ts : list Q),
    length ms = length ns
    /\ Forall (fun m => length (snd m) = Z.to_nat n_timings) ms
    /\ calls s' = calls s ++ flat_map (size_events n_repeats) (combine ns ms)
    /\ next_id s' = next_id s
    /\ length et' = length et
    /\ firstn (i + length ns) et' = firstn i et ++ ts
    /\ Forall2 (fun t m => is_minimum t (map round_total (snd m))) ts ms.
Proof.
  revert i et s. induction ns as [|n ns IH]; intros i et s H Hlen.
  - simpl in H. injection H as <- <-.
    exists [], []. simpl. rewrite !app_nil_r, Nat.add_0_r.
    repeat split; constructor.
  - simpl in H, Hlen.
    apply bind_ok_inv in H. destruct H as (d & s1 & Hg & H).
    apply bind_ok_inv in H. destruct H as (meas & s2 & Hr & H).
    apply bind_ok_inv in H. destruct H as (m & s3 & Hm & H).
    apply lift_result_ok in Hm. destruct Hm as [Hm ->].
    apply bind_ok_inv in H. destruct H as (et1 & s4 & Hs & H).
    apply lift_result_ok in Hs. destruct Hs as [Hs ->].
    rewrite setitem_in_range in Hs by lia. injection Hs as <-.
    apply bind_ok_inv in H. destruct H as (u & s5 & Hl & H).
    apply func_wrapper_ok in Hg. destruct Hg as [Cg Ng].
    unfold Timer_repeat in Hr. apply Timer_repeat_loop_ok in Hr.
    destruct Hr as (rs & Lrs & -> & Cr & Nr).
    apply log_ok in Hl. destruct Hl as [Cl Nl].
    apply IH in H; [|rewrite set_nth_length; lia].
    destruct H as (ms & ts & Hms & Hall & Hcalls & Hid & Hlen' & Hfirst & Hmin).
    exists ((d, rs) :: ms), (m :: ts).
    rewrite set_nth_length in Hlen'.
    repeat split.
    + simpl. lia.
    + constructor; [exact Lrs | exact Hall].
    + rewrite Hcalls, Cl, Cr, Cg. simpl combine. simpl flat_map.
      unfold size_events at 2. simpl fst. simpl snd.
      rewrite <- !app_assoc. reflexivity.
    + congruence.
    + exact Hlen'.
    + simpl length.
      replace (i + S (length ns))%nat with (S i + length ns)%nat by lia.
      rewrite Hfirst. rewrite set_nth_firstn by lia.
      rewrite <- app_assoc. reflexivity.
    + constructor; [|exact Hmin]. apply min_spec. exact Hm.
Qed.

(** *** When the callable and the generator return normally *)

Section Returns.

Hypothesis func_returns : returns_normally func.
Hypothesis generator_returns : returns_normally data_generator.

Lemma run_times_returns (k : nat) (d : D) (s : St) :
  exists s', run_times k (call d) s = (Ok tt, s').
Proof.
  revert s. induction k as [|k IH]; intros s; simpl.
  - eexists. reflexivity.
  - unfold bind. unfold func_wrapper_call at 1.
    destruct (func_returns d (world s)) as (x & w' & E). rewrite E.
    apply IH.
Qed.

Lemma Timer_timeit_returns (d : D) (number : Z) (s : St) :
  exists t s', Timer_timeit perf_counter (call d) number s = (Ok t, s').
Proof.
  unfold Timer_timeit, bind. unfold timer at 1.
  destruct (perf_counter (world s)) as [t0 w0].
  match goal with |- context [run_times ?k ?c ?s0] =>
    destruct (run_times_returns k d s0) as [s1 E] end.
  rewrite E. unfold timer.
  destruct (perf_counter (world s1)) as [t1 w1].
  eexists _, _. reflexivity.
Qed.

Lemma Timer_repeat_loop_returns (k : nat) (d : D) (number : Z) (s : St) :
  exists ts s',
    Timer_repeat_loop perf_counter k (call d) number s = (Ok ts, s')
    /\ length ts = k.
Proof.
  revert s. induction k as [|k IH]; intros s; simpl.
  - eexists _, _. split; reflexivity.
  - unfold bind.
    destruct (Timer_timeit_returns d number s) as (t & s1 & E1). rewrite E1.
    destruct (IH s1) as (ts & s2 & E2 & L). rewrite E2.
    eexists _, _. split; [reflexivity | simpl; lia].
Qed.

(** With at least one timing round and an array long enough, the
    measuring loop runs to its end. *)
Lemma measure_loop_returns (n_repeats n_timings : Z) (verbose : bool)
    (ns : list Z) (i : nat) (et : list Q) (s : St) :
  0 < n_timings ->
  (i + length ns <= length et)%nat ->
  exists et' s',
    measure_loop perf_counter func data_generator
      n_repeats n_timings verbose i ns et s = (Ok et', s').
Proof.
  intros Hnt. revert i et s. induction ns as [|n ns IH]; intros i et s Hlen.
  - eexists _, _. reflexivity.
  - simpl in Hlen. simpl. unfold bind at 1. unfold func_wrapper at 1.
    destruct (generator_returns n (world s)) as (d & w1 & Eg). rewrite Eg.
    unfold bind at 1. unfold Timer_repeat.
    match goal with |- context [Timer_repeat_loop _ ?k _ _ ?s0] =>
      destruct (Timer_repeat_loop_returns k d n_repeats s0)
        as (ts & s2 & E & Lts) end.
    rewrite E. unfold bind at 1, lift_result at 1.
    destruct ts as [|t ts]; [simpl in Lts; lia|].
    simpl Numpy.min. cbv iota beta.
    unfold bind at 1, lift_result at 1.
    rewrite setitem_in_range by lia.
    unfold bind at 1.
    destruct verbose; unfold print, ret; apply IH;
      rewrite set_nth_length; lia.
Qed.

End Returns.

Lemma np_empty_length (n : Z) : length (np_empty n) = Z.to_nat n.
Proof. apply repeat_length. Qed.

Lemma measure_execution_time_negative
    (min_n max_n n_measures n_repeats n_timings : Z) (verbose : bool) (s : St) :
  n_measures < 0 ->
  measure_execution_time perf_counter func data_generator
    min_n max_n n_measures n_repeats n_timings verbose s
  = (Raise (ValueError "Number of samples must be non-negative."), s).
Proof.
  intros H. unfold measure_execution_time, bind, lift_result.
  rewrite linspace_negative by exact H. reflexivity.
Qed.

Lemma measure_execution_time_unfold
    (min_n max_n n_measures n_repeats n_timings : Z) (verbose : bool) (s : St) :
  0 <= n_measures ->
  measure_execution_time perf_counter func data_generator
    min_n max_n n_measures n_repeats n_timings verbose s
  = match measure_loop perf_counter func data_generator
            n_repeats n_timings verbose 0
            (even_sizes min_n max_n n_measures) (np_empty n_measures) s with
    | (Ok et, s') => (Ok (even_sizes min_n max_n n_measures, et), s')
    | (Raise e, s') => (Raise e, s')
    end.
Proof.
  intros H. unfold measure_execution_time.
  destruct (linspace_int64 min_n max_n n_measures H) as (y & Ey & Eint).
  unfold bind at 1, lift_result. rewrite Ey, Eint. reflexivity.
Qed.

Lemma measure_execution_time_returns
    (min_n max_n n_measures n_repeats n_timings : Z) (verbose : bool) (s : St) :
  returns_normally func -> returns_normally data_generator ->
  0 <= n_measures -> 0 < n_timings ->
  exists ns time s',
    measure_execution_time perf_counter func data_generator
      min_n max_n n_measures n_repeats n_timings verbose s
    = (Ok (ns, time), s').
Proof.
  intros Hf Hg Hn Hnt. rewrite measure_execution_time_unfold by exact Hn.
  destruct (measure_loop_returns Hf Hg n_repeats n_timings verbose
              (even_sizes min_n max_n n_measures) 0 (np_empty n_measures) s Hnt)
    as (et & s' & E).
  { rewrite np_empty_length, even_sizes_length. simpl. lia. }
  rewrite E. eexists _, _, _. reflexivity.
Qed.

Lemma measure_execution_time_spec
    (min_n max_n n_measures n_repeats n_timings : Z) (verbose : bool)
    (s s' : St) (ns : list Z) (time : list Q) :
  measure_execution_time perf_counter func data_generator
    min_n max_n n_measures n_repeats n_timings verbose s
  = (Ok (ns, time), s') ->
  0 <= n_measures
  /\ ns = even_sizes min_n max_n n_measures
  /\ length time = length ns
  /\ next_id s' = next_id s
  /\ exists ms : list (D * list (Q * Q)),
       length ms = length ns
       /\ Forall (fun m => length (snd m) = Z.to_nat n_timings) ms
       /\ calls s' = calls s ++ flat_map (size_events n_repeats) (combine ns ms)
       /\ Forall2 (fun t m => is_minimum t (map round_total (snd m))) time ms.
Proof.
  intros H.
  destruct (Z.ltb_spec n_measures 0) as [Hneg|Hn].
  { rewrite measure_execution_time_negative in H by exact Hneg. discriminate. }
  split; [exact Hn|].
  rewrite measure_execution_time_unfold in H by exact Hn.
  destruct (measure_loop _ _ _ _ _ _ _ _ _ _) as [[et|e] s1] eqn:E;
    [|discriminate].
  injection H as <- <- <-.
  apply measure_loop_spec in E;
    [|rewrite np_empty_length, even_sizes_length; simpl; lia].
  destruct E as (ms & ts & Hms & Hall & Hcalls & Hid & Hlen & Hfirst & Hmin).
  rewrite np_empty_length in Hlen.
  simpl in Hfirst.
  rewrite firstn_all2 in Hfirst by (rewrite Hlen, even_sizes_length; lia).
  subst ts.
  repeat split.
  - rewrite Hlen, even_sizes_length. reflexivity.
  - exact Hid.
  - exists ms. repeat split; assumption.
Qed.




End HarnessFacts.

(** ** Facts about the selector *)

Section SelectorFacts.

Context {W D Class Coeff : Type}.
Variable fit : Class -> list Z -> list Q -> result (Coeff * Float.float).

Local Abbreviation St := (state W D Class Coeff).
Local Abbreviation Inst := (instance Class Coeff).

Lemma dict_set_fresh (f : dict Class Coeff) (inst : Inst) (v : value) :
  ids_below (inst_id inst) f ->
  dict_set f (KInst inst) v = f ++ [(KInst inst, v)].
Proof.
  unfold ids_below. induction f as [|[k v'] f IH]; intros H; simpl.
  - reflexivity.
  - inversion H as [|? ? Hk Hf]; subst. simpl in Hk.
    destruct k as [i|name]; simpl.
    + destruct (Nat.eqb_spec (inst_id i) (inst_id inst)); [lia|].
      rewrite IH by exact Hf. reflexivity.
    + rewrite IH by exact Hf. reflexivity.
Qed.

Lemma ids_below_snoc (bound : nat) (f : dict Class Coeff) (inst : Inst) (v : value) :
  ids_below bound f -> (inst_id inst = bound)%nat ->
  ids_below (S bound) (f ++ [(KInst inst, v)]).
Proof.
  unfold ids_below. intros Hf Hid. apply Forall_app. split.
  - eapply Forall_impl; [|exact Hf]. intros [[i|n] v']; simpl; lia.
  - constructor; [simpl; lia | constructor].
Qed.

Lemma log_fit_state (l : line) (verbose : bool) (s : St) :
  exists out,
    log l (Some verbose) s
    = (Ok tt, mkState (world s) (next_id s) (calls s) out).
Proof. destruct verbose, s; eexists; reflexivity. Qed.

(** The value the loop returns, as a function of the [fit] results. *)
Lemma infer_loop_value (ns : list Z) (time : list Q) (verbose : bool)
    (classes : list Class) (b : option Inst) (br : Float.float)
    (f : dict Class Coeff) (s : St) :
  ids_below (next_id s) f ->
  fst (infer_loop fit ns time verbose classes b br f s)
  = match fit_entries fit ns time (next_id s) classes with
    | Ok es => Ok (fst (running_best es (b, br)), f ++ map entry es)
    | Raise e => Raise e
    end.
Proof.
  revert b br f s. induction classes as [|c cs IH]; intros b br f s Hf.
  - simpl. rewrite app_nil_r. reflexivity.
  - simpl infer_loop. simpl fit_entries.
    unfold new_instance, inst_fit, lift_result, ret, log, print, bind.
    cbn [inst_id inst_class].
    destruct (fit c ns time) as [[co r]|e]; [|reflexivity].
    cbv beta iota.
    destruct (update_best _ r b br) as [b1 br1] eqn:Eu.
    rewrite dict_set_fresh by exact Hf.
    assert (Hf' : ids_below (S (next_id s))
                    (f ++ [(KInst (mkInstance (next_id s) c (Some co)), VRes r)])).
    { apply ids_below_snoc; [exact Hf | reflexivity]. }
    destruct verbose; rewrite IH by exact Hf'; cbn [next_id];
      (destruct (fit_entries fit ns time (S (next_id s)) cs) as [es|e];
       [|reflexivity]);
      unfold running_best; simpl fold_left; cbn [fst snd];
      rewrite Eu; rewrite <- app_assoc; reflexivity.
Qed.

Lemma infer_big_o_class_value (ns : list Z) (time : list Q)
    (classes : list Class) (verbose : bool) (s : St) :
  fst (infer_big_o_class fit ns time classes verbose s)
  = match fit_entries fit ns time (next_id s) classes with
    | Ok es => Ok (fst (running_best es (None, Float.inf)), map entry es)
    | Raise e => Raise e
    end.
Proof.
  unfold infer_big_o_class. rewrite infer_loop_value; [reflexivity|].
  constructor.
Qed.

Lemma infer_big_o_class_ok (ns : list Z) (time : list Q)
    (classes : list Class) (verbose : bool) (s s' : St)
    (best : option Inst) (fitted : dict Class Coeff) :
  infer_big_o_class fit ns time classes verbose s = (Ok (best, fitted), s') ->
  exists es,
    fit_entries fit ns time (next_id s) classes = Ok es
    /\ best = fst (running_best es (None, Float.inf))
    /\ fitted = map entry es.
Proof.
  intros H. pose proof (infer_big_o_class_value ns time classes verbose s) as V.
  rewrite H in V. simpl in V.
  destruct (fit_entries fit ns time (next_id s) classes) as [es|e];
    [|discriminate].
  injection V as -> ->. exists es. repeat split.
Qed.

Lemma infer_big_o_class_returns (ns : list Z) (time : list Q)
    (classes : list Class) (verbose : bool) (s : St)
    (es : list (Inst * Float.float)) :
  fit_entries fit ns time (next_id s) classes = Ok es ->
  exists s',
    infer_big_o_class fit ns time classes verbose s
    = (Ok (fst (running_best es (None, Float.inf)), map entry es), s').
Proof.
  intros H. pose proof (infer_big_o_class_value ns time classes verbose s) as V.
  rewrite H in V.
  destruct (infer_big_o_class fit ns time classes verbose s) as [r s'].
  simpl in V. subst r. exists s'. reflexivity.
Qed.

(** *** The instances and residuals of one invocation *)

Lemma fit_entries_nth (ns : list Z) (time : list Q) (classes : list Class) :
  forall id es,
    fit_entries fit ns time id classes = Ok es ->
    length es = length classes
    /\ forall i c,
         nth_error classes i = Some c ->
         exists co r,
           fit c ns time = Ok (co, r)
           /\ nth_error es i = Some (mkInstance (id + i) c (Some co), r).
Proof.
  induction classes as [|c cs IH]; intros id es H; simpl in H.
  - injection H as <-. split; [reflexivity|].
    intros [|i] c' Hc; discriminate.
  - destruct (fit c ns time) as [[co r]|e] eqn:Ef; [|discriminate].
    destruct (fit_entries fit ns time (S id) cs) as [es0|e] eqn:E0;
      [|discriminate].
    injection H as <-. destruct (IH _ _ E0) as [Hlen Hnth].
    split; [simpl; lia|].
    intros [|i] c' Hc; simpl in Hc.
    + injection Hc as <-. exists co, r. rewrite Nat.add_0_r.
      split; [exact Ef | reflexivity].
    + destruct (Hnth i c' Hc) as (co' & r' & Hfit & Hes).
      exists co', r'. split; [exact Hfit|].
      replace (id + S i)%nat with (S id + i)%nat by lia. exact Hes.
Qed.

Lemma fit_entries_ids (ns : list Z) (time : list Q) (classes : list Class) :
  forall id es,
    fit_entries fit ns time id classes = Ok es ->
    map (fun e => inst_id (fst e)) es = seq id (length classes).
Proof.
  induction classes as [|c cs IH]; intros id es H; simpl in H.
  - injection H as <-. reflexivity.
  - destruct (fit c ns time) as [[co r]|e]; [|discriminate].
    destruct (fit_entries fit ns time (S id) cs) as [es0|e] eqn:E0;
      [|discriminate].
    injection H as <-. simpl. f_equal. apply IH. exact E0.
Qed.

Lemma fit_entries_total (ns : list Z) (time : list Q) (classes : list Class) :
  (forall c, In c classes -> exists co r, fit c ns time = Ok (co, r)) ->
  forall id, exists es, fit_entries fit ns time id classes = Ok es.
Proof.
  induction classes as [|c cs IH]; intros H id; simpl.
  - eexists. reflexivity.
  - destruct (H c (or_introl eq_refl)) as (co & r & ->).
    destruct (IH (fun c' Hc' => H c' (or_intror Hc')) (S id)) as [es ->].
    eexists. reflexivity.
Qed.

Lemma fit_entries_app (ns : list Z) (time : list Q) (l1 l2 : list Class) :
  forall id,
    fit_entries fit ns time id (l1 ++ l2)
    = match fit_entries fit ns time id l1 with
      | Ok es1 =>
          match fit_entries fit ns time (id + length l1) l2 with
          | Ok es2 => Ok (es1 ++ es2)
          | Raise e => Raise e
          end
      | Raise e => Raise e
      end.
Proof.
  induction l1 as [|c cs IH]; intros id; simpl.
  - rewrite Nat.add_0_r.
    destruct (fit_entries fit ns time id l2); reflexivity.
  - destruct (fit c ns time) as [[co r]|e]; [|reflexivity].
    rewrite IH. replace (id + S (length cs))%nat with (S id + length cs)%nat by lia.
    destruct (fit_entries fit ns time (S id) cs); [|reflexivity].
    destruct (fit_entries fit ns time (S id + length cs) l2); reflexivity.
Qed.

(** Two invocations allocate different objects but the same candidates. *)
Lemma fit_entries_view (ns : list Z) (time : list Q) (classes : list Class)
    (base1 base2 : nat) :
  forall k,
    result_map (map (entry_view base1))
               (fit_entries fit ns time (base1 + k) classes)
    = result_map (map (entry_view base2))
                 (fit_entries fit ns time (base2 + k) classes).
Proof.
  induction classes as [|c cs IH]; intros k; simpl.
  - reflexivity.
  - destruct (fit c ns time) as [[co r]|e]; [|reflexivity].
    specialize (IH (S k)).
    replace (base1 + S k)%nat with (S (base1 + k)) in IH by lia.
    replace (base2 + S k)%nat with (S (base2 + k)) in IH by lia.
    destruct (fit_entries fit ns time (S (base1 + k)) cs) as [es1|e1];
      destruct (fit_entries fit ns time (S (base2 + k)) cs) as [es2|e2];
      simpl in *; try discriminate.
    + injection IH as IH. rewrite IH.
      unfold entry_view at 1 3, candidate_view. simpl.
      replace (base1 + k - base1)%nat with k by lia.
      replace (base2 + k - base2)%nat with k by lia.
      reflexivity.
    + exact IH.
Qed.

(** *** The running best *)

Lemma running_best_snoc (es : list (Inst * Float.float)) (e : Inst * Float.float)
    (acc : option Inst * Float.float) :
  running_best (es ++ [e]) acc
  = update_best (fst e) (snd e)
      (fst (running_best es acc)) (snd (running_best es acc)).
Proof. unfold running_best. rewrite fold_left_app. reflexivity. Qed.

Lemma update_best_cases (inst : Inst) (r : Float.float)
    (b : option Inst) (br : Float.float) :
  (lower_by_more_than_eps r br /\ update_best inst r b br = (Some inst, r))
  \/ (~ lower_by_more_than_eps r br /\ update_best inst r b br = (b, br)).
Proof.
  unfold update_best, lower_by_more_than_eps.
  destruct (Float.ltb r (Float.sub br (Float.Fin Float.eps))).
  - left. split; reflexivity.
  - right. split; [discriminate | reflexivity].
Qed.

(** The running best is the initial one or one of the entries, and its
    residual is the one recorded with it. *)
Lemma running_best_origin (es : list (Inst * Float.float)) :
  forall acc,
    running_best es acc = acc
    \/ exists inst,
         fst (running_best es acc) = Some inst
         /\ In (inst, snd (running_best es acc)) es.
Proof.
  induction es as [|[i r] es IH]; intros acc.
  - left. reflexivity.
  - change (running_best ((i, r) :: es) acc)
      with (running_best es (update_best i r (fst acc) (snd acc))).
    destruct (IH (update_best i r (fst acc) (snd acc))) as [E | (inst & Hb & Hin)].
    + rewrite E.
      destruct (update_best_cases i r (fst acc) (snd acc)) as [[_ U] | [_ U]];
        rewrite U.
      * right. exists i. split; [reflexivity | left; reflexivity].
      * left. destruct acc; reflexivity.
    + right. exists inst. split; [exact Hb | right; exact Hin].
Qed.

Lemma running_best_view (base1 base2 : nat) (es1 : list (Inst * Float.float)) :
  forall es2 acc1 acc2,
    map (entry_view base1) es1 = map (entry_view base2) es2 ->
    option_map (candidate_view base1) (fst acc1)
    = option_map (candidate_view base2) (fst acc2) ->
    snd acc1 = snd acc2 ->
    option_map (candidate_view base1) (fst (running_best es1 acc1))
    = option_map (candidate_view base2) (fst (running_best es2 acc2)).
Proof.
  induction es1 as [|[i1 r1] es1 IH]; intros [|[i2 r2] es2] acc1 acc2 Hes Hb Hr;
    try discriminate.
  - exact Hb.
  - cbn [map] in Hes. unfold entry_view at 1 3 in Hes.
    injection Hes as Hid Hcls Hco Hres Htl.
    cbn [fst snd] in Hid, Hcls, Hco, Hres. subst r2.
    change (running_best ((i1, r1) :: es1) acc1)
      with (running_best es1 (update_best i1 r1 (fst acc1) (snd acc1))).
    change (running_best ((i2, r1) :: es2) acc2)
      with (running_best es2 (update_best i2 r1 (fst acc2) (snd acc2))).
    apply IH; [exact Htl | |]; unfold update_best; rewrite Hr;
      destruct (Float.ltb r1 _); cbn [fst snd option_map];
      try assumption; try reflexivity.
    unfold candidate_view. rewrite Hid, Hcls, Hco. reflexivity.
Qed.

(** With finite residuals the running residual only goes down, and every
    entry seen is at most epsilon below it. *)
Lemma running_best_bound (es : list (Inst * Float.float)) :
  (forall e, In e es -> exists r, snd e = Float.Fin r) ->
  forall b q,
    exists b' q',
      running_best es (b, Float.Fin q) = (b', Float.Fin q')
      /\ (q' <= q)%Q
      /\ forall inst r, In (inst, Float.Fin r) es -> (q' <= r + Float.eps)%Q.
Proof.
  induction es as [|[i fr] es IH]; intros Hfin b q.
  - exists b, q. split; [reflexivity|]. split; [apply Qle_refl|].
    intros inst r [].
  - destruct (Hfin (i, fr) (or_introl eq_refl)) as [r Er]. simpl in Er. subst fr.
    assert (Hfin' : forall e, In e es -> exists r, snd e = Float.Fin r).
    { intros e He. apply Hfin. right. exact He. }
    change (running_best ((i, Float.Fin r) :: es) (b, Float.Fin q))
      with (running_best es (update_best i (Float.Fin r) b (Float.Fin q))).
    unfold update_best.
    destruct (Float.ltb (Float.Fin r) (Float.sub (Float.Fin q) (Float.Fin Float.eps)))
      eqn:El.
    + apply ltb_sub_eps_fin in El.
      destruct (IH Hfin' (Some i) r) as (b' & q' & E & Hle & Hall).
      exists b', q'. split; [exact E|].
      unfold Float.eps in *. split; [lra|].
      intros inst r' [Hin | Hin].
      * injection Hin as _ <-. lra.
      * apply Hall with inst. exact Hin.
    + simpl in El. apply Qlt_bool_false in El.
      destruct (IH Hfin' b q) as (b' & q' & E & Hle & Hall).
      exists b', q'. split; [exact E|].
      unfold Float.eps in *. split; [lra|].
      intros inst r' [Hin | Hin].
      * injection Hin as _ <-. lra.
      * apply Hall with inst. exact Hin.
Qed.

(** *** Looking residuals up *)

Lemma dict_get_entry (es : list (Inst * Float.float)) (inst : Inst) (r : Float.float) :
  NoDup (map (fun e => inst_id (fst e)) es) ->
  In (inst, r) es ->
  dict_get (map entry es) (KInst inst) = Some (VRes r).
Proof.
  induction es as [|[i0 r0] es IH]; intros Hnd Hin; [destruct Hin|].
  simpl in Hnd. inversion Hnd as [|? ? Hnotin Hnd']; subst.
  simpl. destruct Hin as [Hin | Hin].
  - injection Hin as -> ->. rewrite Nat.eqb_refl. reflexivity.
  - destruct (Nat.eqb_spec (inst_id i0) (inst_id inst)) as [E|_].
    + exfalso. apply Hnotin. rewrite E.
      apply (in_map (fun e => inst_id (fst e)) es (inst, r)). exact Hin.
    + apply IH; assumption.
Qed.

Lemma best_residual_running (es : list (Inst * Float.float)) :
  NoDup (map (fun e => inst_id (fst e)) es) ->
  best_residual (map entry es) (fst (running_best es (None, Float.inf)))
  = Some (snd (running_best es (None, Float.inf))).
Proof.
  intros Hnd.
  destruct (running_best_origin es (None, Float.inf)) as [E | (inst & Hb & Hin)].
  - rewrite E. reflexivity.
  - rewrite Hb. unfold best_residual, residual_of.
    rewrite (dict_get_entry es inst _ Hnd Hin). reflexivity.
Qed.

Lemma entries_keys_are_models (es : list (Inst * Float.float)) :
  forallb (fun kv => is_model_key (fst kv)) (map entry es) = true.
Proof. induction es as [|e es IH]; simpl; auto. Qed.

Lemma fit_entries_NoDup (ns : list Z) (time : list Q) (classes : list Class)
    (id : nat) (es : list (Inst * Float.float)) :
  fit_entries fit ns time id classes = Ok es ->
  NoDup (map (fun e => inst_id (fst e)) es).
Proof.
  intros H. rewrite (fit_entries_ids _ _ _ _ _ H). apply seq_NoDup.
Qed.

Lemma fit_entries_In (ns : list Z) (time : list Q) (classes : list Class)
    (id : nat) (es : list (Inst * Float.float)) (e : Inst * Float.float) :
  fit_entries fit ns time id classes = Ok es ->
  In e es ->
  exists c co,
    In c classes /\ fit c ns time = Ok (co, snd e)
    /\ (id <= inst_id (fst e) < id + length classes)%nat.
Proof.
  intros H Hin. destruct (fit_entries_nth _ _ _ _ _ H) as [Hlen Hnth].
  apply In_nth_error in Hin. destruct Hin as [i Hi].
  assert (Hlt : (i < length classes)%nat).
  { rewrite <- Hlen. apply nth_error_Some. congruence. }
  destruct (nth_error classes i) as [c|] eqn:Ec;
    [|apply nth_error_None in Ec; lia].
  destruct (Hnth i c Ec) as (co & r & Hfit & Hes).
  rewrite Hi in Hes. injection Hes as ->.
  exists c, co. simpl. split; [eapply nth_error_In; exact Ec|].
  split; [exact Hfit | lia].
Qed.

Lemma within_eps_not_lower (br r : Float.float) :
  within_eps br r -> ~ lower_by_more_than_eps r br.
Proof.
  unfold within_eps, lower_by_more_than_eps.
  destruct br as [a| | |]; try contradiction.
  destruct r as [b| | |]; try contradiction.
  intros Habs Hlt. apply ltb_sub_eps_fin in Hlt.
  apply Qabs_Qle_condition in Habs. destruct Habs as [_ Hle].
  unfold Float.eps in *. lra.
Qed.

(** C1 (as amended).  With an empty candidate list the selector does not
    fail: the loop body never runs and the call returns the pair of
    [None] and the empty dictionary, leaving the state as it was. *)
Theorem empty_candidate_list_returns_none
    (ns : list Z) (time : list Q) (verbose : bool) (s : St) :
  infer_big_o_class fit ns time [] verbose s = (Ok (None, []), s).
Proof. reflexivity. Qed.


(** C7.  For a non-empty candidate list the selector returns as soon as
    every [fit] returns, and whenever it returns, [fitted] has exactly
    one entry per candidate, in evaluation order: the entry of the [i]-th
    candidate is keyed by the instance constructed for it during this
    call (the [i]-th object allocated, of that candidate's class, holding
    the fitted coefficients) and carries the residual its [fit] returned,
    whether or not that model is the best; no two entries share a key. *)
Theorem fitted_has_one_entry_per_candidate
    (ns : list Z) (time : list Q) (classes : list Class)
    (verbose : bool) (s : St) :
  classes <> [] ->
  ((forall c, In c classes -> exists co r, fit c ns time = Ok (co, r)) ->
     exists best fitted s',
       infer_big_o_class fit ns time classes verbose s = (Ok (best, fitted), s'))
  /\ (forall best fitted s',
        infer_big_o_class fit ns time classes verbose s = (Ok (best, fitted), s') ->
        length fitted = length classes
        /\ (forall i c,
              nth_error classes i = Some c ->
              exists co r,
                fit c ns time = Ok (co, r)
                /\ nth_error fitted i
                   = Some (KInst (mkInstance (next_id s + i) c (Some co)), VRes r))
        /\ (forall i j ki vi kj vj,
              i <> j ->
              nth_error fitted i = Some (ki, vi) ->
              nth_error fitted j = Some (kj, vj) ->
              key_eqb ki kj = false)).
Proof.
  intros _. split.
  - intros Hfit.
    destruct (fit_entries_total ns time classes Hfit (next_id s)) as [es E].
    destruct (infer_big_o_class_returns ns time classes verbose s es E) as [s' R].
    eexists _, _, s'. exact R.
  - intros best fitted s' H.
    apply infer_big_o_class_ok in H. destruct H as (es & E & _ & ->).
    destruct (fit_entries_nth _ _ _ _ _ E) as [Hlen Hnth].
    assert (Hkey : forall i k v,
               nth_error (map entry es) i = Some (k, v) ->
               exists inst, k = KInst inst /\ inst_id inst = (next_id s + i)%nat).
    { intros i k v Hi. rewrite nth_error_map in Hi.
      destruct (nth_error es i) as [e|] eqn:Ee; [|discriminate].
      injection Hi as <- <-. exists (fst e). split; [reflexivity|].
      pose proof (fit_entries_ids _ _ _ _ _ E) as Hids.
      assert (Hn : nth_error (map (fun e => inst_id (fst e)) es) i
                   = Some (inst_id (fst e))).
      { rewrite nth_error_map, Ee. reflexivity. }
      rewrite Hids in Hn.
      assert (Hlt : (i < length classes)%nat).
      { rewrite <- Hlen. apply nth_error_Some. congruence. }
      rewrite nth_error_seq in Hn.
      destruct (Nat.ltb_spec i (length classes)); [|lia].
      injection Hn as <-. reflexivity. }
    split; [|split].
    + rewrite length_map. exact Hlen.
    + intros i c Hc. destruct (Hnth i c Hc) as (co & r & Hfit & Hes).
      exists co, r. split; [exact Hfit|].
      rewrite nth_error_map, Hes. reflexivity.
    + intros i j ki vi kj vj Hij Hi Hj.
      destruct (Hkey _ _ _ Hi) as (a & -> & Ha).
      destruct (Hkey _ _ _ Hj) as (b & -> & Hb).
      simpl. apply Nat.eqb_neq. lia.
Qed.



End SelectorFacts.

(** ** Facts about the orchestrator *)

Section OrchestratorFacts.

Context {W D Class Coeff : Type}.
Variable fit : Class -> list Z -> list Q -> result (Coeff * Float.float).
Variable perf_counter : W -> Q * W.
Variable func : D -> W -> result unit * W.
Variable data_generator : Z -> W -> result D * W.

Local Abbreviation St := (state W D Class Coeff).

Lemma dict_set_past_models (f g : dict Class Coeff) (name : string) (v : value) :
  forallb (fun kv => is_model_key (fst kv)) f = true ->
  dict_set (f ++ g) (KStr name) v = f ++ dict_set g (KStr name) v.
Proof.
  induction f as [|[k v'] f IH]; simpl; intros H.
  - reflexivity.
  - apply andb_true_iff in H. destruct H as [Hk Hf].
    destruct k as [i|n]; [|discriminate]. simpl.
    rewrite IH by exact Hf. reflexivity.
Qed.

(** C8.  Without raw data the orchestrator is the harness followed by the
    selector on the observations the harness returned, and nothing else:
    as computations on the state the two are equal, in the value returned
    or exception raised as well as in every effect. *)
Theorem big_o_is_harness_then_selector
    (min_n max_n n_measures n_repeats n_timings : Z) (classes : list Class)
    (verbose : bool) (s : St) :
  big_o fit perf_counter func data_generator
    min_n max_n n_measures n_repeats n_timings classes verbose false s
  = harness_then_selector fit perf_counter func data_generator
      min_n max_n n_measures n_repeats n_timings classes verbose s.
Proof.
  unfold big_o, harness_then_selector, bind.
  destruct (measure_execution_time _ _ _ _ _ _ _ _ _ s) as [[[ns time]|e] s1];
    [|reflexivity].
  cbn [fst snd].
  destruct (infer_big_o_class fit ns time classes verbose s1)
    as [[[best fitted]|e] s2]; reflexivity.
Qed.

(** C6.  When the orchestrator returns with [return_raw_data=True], the
    dictionary it returns is the one the selector produced, every entry
    of which is keyed by a model instance, followed by exactly two
    entries: the sizes the harness measured under the string ['measures']
    and the times it measured under the string ['times'].  The best model
    and the final state are those of the call without raw data. *)
Theorem raw_data_adds_two_string_entries
    (min_n max_n n_measures n_repeats n_timings : Z) (classes : list Class)
    (verbose : bool) (s s' : St)
    (best : option (instance Class Coeff)) (fitted' : dict Class Coeff) :
  big_o fit perf_counter func data_generator
    min_n max_n n_measures n_repeats n_timings classes verbose true s
  = (Ok (best, fitted'), s') ->
  exists ns time fitted s1,
    measure_execution_time perf_counter func data_generator
      min_n max_n n_measures n_repeats n_timings verbose s
    = (Ok (ns, time), s1)
    /\ infer_big_o_class fit ns time classes verbose s1 = (Ok (best, fitted), s')
    /\ big_o fit perf_counter func data_generator
         min_n max_n n_measures n_repeats n_timings classes verbose false s
       = (Ok (best, fitted), s')
    /\ forallb (fun kv => is_model_key (fst kv)) fitted = true
    /\ fitted' = fitted ++ [(KStr "measures", VSizes ns);
                            (KStr "times", VTimes time)].
Proof.
  intros H. unfold big_o in H.
  apply bind_ok_inv in H. destruct H as ([ns time] & s1 & Em & H).
  apply bind_ok_inv in H. destruct H as ([b f] & s2 & Ei & H).
  unfold ret in H. injection H as <- <- <-.
  destruct (infer_big_o_class_ok _ _ _ _ _ _ _ _ _ Ei) as (es & _ & _ & Hf).
  assert (Hkeys : forallb (fun kv => is_model_key (fst kv)) f = true).
  { rewrite Hf. apply entries_keys_are_models. }
  exists ns, time, f, s1. repeat split.
  - exact Em.
  - exact Ei.
  - unfold big_o. rewrite (bind_ok _ _ _ _ _ Em).
    cbv beta iota. rewrite (bind_ok _ _ _ _ _ Ei). reflexivity.
  - exact Hkeys.
  - rewrite <- (app_nil_r f) at 1.
    rewrite dict_set_past_models by exact Hkeys.
    rewrite dict_set_past_models by exact Hkeys.
    reflexivity.
Qed.

End OrchestratorFacts.

(** ** Further facts about the timing harness *)

Section HarnessMore.

Context {W D Class Coeff : Type}.
Variable perf_counter : W -> Q * W.
Variable func : D -> W -> result unit * W.
Variable data_generator : Z -> W -> result D * W.

Local Abbreviation St := (state W D Class Coeff).
Local Abbreviation call := (func_wrapper_call (Class:=Class) (Coeff:=Coeff) func).
Local Abbreviation stops := (stops_at_first_raise (W:=W) (D:=D) (Class:=Class) (Coeff:=Coeff)).

(** *** Exceptions of the callable and of the generator *)

Lemma quiet_app (tr1 tr2 : list (event D)) :
  quiet tr1 -> quiet tr2 -> quiet (tr1 ++ tr2).
Proof. intros H1 H2. apply Forall_app. split; assumption. Qed.

Lemma stops_silent {A} (m : M St A) :
  (forall s r s', m s = (r, s') -> calls s' = calls s) -> stops m.
Proof.
  intros Hm s r s' H. exists []. rewrite app_nil_r.
  split; [eapply Hm; exact H | left; constructor].
Qed.

Lemma stops_ret {A} (a : A) : stops (ret a).
Proof. apply stops_silent. intros s r s' H. injection H as _ <-. reflexivity. Qed.

Lemma stops_lift_result {A} (r0 : result A) : stops (lift_result r0).
Proof. apply stops_silent. intros s r s' H. injection H as _ <-. reflexivity. Qed.

Lemma stops_log (l : line) (verbose : bool) : stops (log l (Some verbose)).
Proof.
  apply stops_silent. intros s r s' H.
  destruct verbose; simpl in H; unfold print, ret in H;
    injection H as _ <-; reflexivity.
Qed.

Lemma stops_bind {A B} (m : M St A) (k : A -> M St B) :
  stops m -> (forall a, stops (k a)) -> stops (bind m k).
Proof.
  intros Hm Hk s r s' H. unfold bind in H.
  destruct (m s) as [[a|e] s1] eqn:E.
  - destruct (Hm _ _ _ E) as (tr1 & C1 & [Q1 | (tr0 & ev & e & _ & _ & _ & Habs)]);
      [|discriminate].
    destruct (Hk a _ _ _ H) as (tr2 & C2 & D2).
    exists (tr1 ++ tr2). split; [rewrite C2, C1, app_assoc; reflexivity|].
    destruct D2 as [Q2 | (tr0 & ev & e & -> & Q0 & Hr & ->)].
    + left. apply quiet_app; assumption.
    + right. exists (tr1 ++ tr0), ev, e. rewrite app_assoc.
      repeat split; [apply quiet_app; assumption | exact Hr].
  - injection H as <- <-.
    destruct (Hm _ _ _ E) as (tr1 & C1 & [Q1 | (tr0 & ev & e0 & T & Q0 & Hr & He)]).
    + exists tr1. split; [exact C1 | left; exact Q1].
    + exists tr1. split; [exact C1|]. right. exists tr0, ev, e0.
      injection He as ->. repeat split; assumption.
Qed.

Lemma stops_timer : stops (timer perf_counter).
Proof.
  intros s r s' H. unfold timer in H.
  destruct (perf_counter (world s)) as [t w]. injection H as <- <-.
  exists [ETimer t]. split; [reflexivity|].
  left. constructor; [reflexivity | constructor].
Qed.

Lemma stops_func_wrapper (n : Z) : stops (func_wrapper data_generator n).
Proof.
  intros s r s' H. unfold func_wrapper in H.
  destruct (data_generator n (world s)) as [[d|e] w]; injection H as <- <-.
  - exists [EGen n d]. split; [reflexivity|].
    left. constructor; [reflexivity | constructor].
  - exists [EGenRaise n e]. split; [reflexivity|].
    right. exists [], (EGenRaise n e), e. repeat split. constructor.
Qed.

Lemma stops_call (d : D) : stops (call d).
Proof.
  intros s r s' H. unfold func_wrapper_call in H.
  destruct (func d (world s)) as [[u|e] w]; injection H as <- <-.
  - exists [ECall d]. split; [reflexivity|].
    left. constructor; [reflexivity | constructor].
  - exists [ECallRaise d e]. split; [reflexivity|].
    right. exists [], (ECallRaise d e), e. repeat split. constructor.
Qed.

Lemma stops_run_times (k : nat) (d : D) : stops (run_times k (call d)).
Proof.
  induction k as [|k IH]; simpl.
  - apply stops_ret.
  - apply stops_bind; [apply stops_call | intros _; exact IH].
Qed.

Lemma stops_Timer_timeit (d : D) (number : Z) :
  stops (Timer_timeit perf_counter (call d) number).
Proof.
  unfold Timer_timeit.
  apply stops_bind; [apply stops_timer | intros t0].
  apply stops_bind; [apply stops_run_times | intros _].
  apply stops_bind; [apply stops_timer | intros t1].
  apply stops_ret.
Qed.

Lemma stops_Timer_repeat_loop (k : nat) (d : D) (number : Z) :
  stops (Timer_repeat_loop perf_counter k (call d) number).
Proof.
  induction k as [|k IH]; simpl.
  - apply stops_ret.
  - apply stops_bind; [apply stops_Timer_timeit | intros t].
    apply stops_bind; [exact IH | intros r]. apply stops_ret.
Qed.

Lemma stops_measure_loop (n_repeats n_timings : Z) (verbose : bool)
    (ns : list Z) :
  forall i et,
    stops (measure_loop perf_counter func data_generator
             n_repeats n_timings verbose i ns et).
Proof.
  induction ns as [|n ns IH]; intros i et; simpl.
  - apply stops_ret.
  - apply stops_bind; [apply stops_func_wrapper | intros d].
    apply stops_bind; [apply stops_Timer_repeat_loop | intros meas].
    apply stops_bind; [apply stops_lift_result | intros m].
    apply stops_bind; [apply stops_lift_result | intros et1].
    apply stops_bind; [apply stops_log | intros _].
    apply IH.
Qed.

Lemma stops_measure_execution_time
    (min_n max_n n_measures n_repeats n_timings : Z) (verbose : bool) :
  stops (measure_execution_time perf_counter func data_generator
           min_n max_n n_measures n_repeats n_timings verbose).
Proof.
  unfold measure_execution_time.
  apply stops_bind; [apply stops_lift_result | intros y].
  apply stops_bind; [apply stops_measure_loop | intros et].
  apply stops_ret.
Qed.

(** X1.  The harness catches nothing.  Whatever a call of
    [measure_execution_time] returns, the calls it made to the generator
    and to the callable all returned normally, except possibly the very
    last one: if that one raised, the harness made no further call and
    raised that same exception. *)
Theorem harness_stops_at_first_raise
    (min_n max_n n_measures n_repeats n_timings : Z) (verbose : bool) :
  stops_at_first_raise
    (measure_execution_time (Class:=Class) (Coeff:=Coeff)
       perf_counter func data_generator
       min_n max_n n_measures n_repeats n_timings verbose).
Proof.
  unfold measure_execution_time.
  apply stops_bind; [apply stops_lift_result | intros y].
  apply stops_bind; [apply stops_measure_loop | intros et].
  apply stops_ret.
Qed.

(** *** How often the collaborators are invoked *)

Lemma count_app (f : event D -> bool) (tr1 tr2 : list (event D)) :
  count f (tr1 ++ tr2) = (count f tr1 + count f tr2)%nat.
Proof. unfold count. rewrite filter_app, length_app. reflexivity. Qed.

Lemma count_repeat_call (f : event D -> bool) (d : D) (k : nat) :
  count f (repeat (ECall d) k) = (if f (ECall d) then k else 0)%nat.
Proof.
  unfold count. induction k as [|k IH]; simpl.
  - destruct (f (ECall d)); reflexivity.
  - destruct (f (ECall d)); simpl; [rewrite IH; reflexivity | exact IH].
Qed.

Lemma count_flat_map {X} (f : event D -> bool) (g : X -> list (event D))
    (c : nat) (l : list X) :
  (forall x, In x l -> count f (g x) = c) ->
  count f (flat_map g l) = (length l * c)%nat.
Proof.
  induction l as [|x l IH]; intros H; simpl.
  - reflexivity.
  - rewrite count_app, IH, H; [reflexivity | left; reflexivity |].
    intros y Hy. apply H. right. exact Hy.
Qed.

Lemma count_round_events (d : D) (n_repeats : Z) (r : Q * Q) :
  count is_gen (round_events d n_repeats r) = 0%nat
  /\ count is_call (round_events d n_repeats r) = Z.to_nat n_repeats
  /\ count is_timer (round_events d n_repeats r) = 2%nat.
Proof.
  unfold round_events.
  change (ETimer (fst r) :: repeat (ECall d) (Z.to_nat n_repeats) ++ [ETimer (snd r)])
    with ([ETimer (fst r)] ++ repeat (ECall d) (Z.to_nat n_repeats) ++ [ETimer (snd r)]).
  rewrite !count_app, !count_repeat_call. simpl.
  repeat split; unfold count; simpl; lia.
Qed.

Lemma count_size_events (n_repeats : Z) (k : nat) (nm : Z * (D * list (Q * Q))) :
  length (snd (snd nm)) = k ->
  count is_gen (size_events n_repeats nm) = 1%nat
  /\ count is_call (size_events n_repeats nm) = (k * Z.to_nat n_repeats)%nat
  /\ count is_timer (size_events n_repeats nm) = (k * 2)%nat.
Proof.
  intros Hk. unfold size_events.
  change (EGen (fst nm) (fst (snd nm))
            :: flat_map (round_events (fst (snd nm)) n_repeats) (snd (snd nm)))
    with ([EGen (fst nm) (fst (snd nm))]
            ++ flat_map (round_events (fst (snd nm)) n_repeats) (snd (snd nm))).
  rewrite !count_app.
  rewrite (count_flat_map is_gen _ 0), (count_flat_map is_call _ (Z.to_nat n_repeats)),
    (count_flat_map is_timer _ 2);
    try (intros r _; apply count_round_events).
  rewrite Hk. unfold count. simpl. repeat split; lia.
Qed.

(** X2.  When the harness returns, it has invoked the generator once per
    sampled size, the callable [n_timings * n_repeats] times per size and
    read the clock twice per timing round, and none of these calls
    raised.  Counts below zero count as zero: with [n_repeats <= 0] the
    callable is never executed and the times recorded are those of empty
    rounds. *)
Theorem harness_invocation_counts
    (min_n max_n n_measures n_repeats n_timings : Z) (verbose : bool)
    (s s' : St) (ns : list Z) (time : list Q) :
  measure_execution_time perf_counter func data_generator
    min_n max_n n_measures n_repeats n_timings verbose s
  = (Ok (ns, time), s') ->
  exists tr,
    calls s' = calls s ++ tr
    /\ quiet tr
    /\ count is_gen tr = Z.to_nat n_measures
    /\ count is_call tr
       = (Z.to_nat n_measures * (Z.to_nat n_timings * Z.to_nat n_repeats))%nat
    /\ count is_timer tr = (Z.to_nat n_measures * (Z.to_nat n_timings * 2))%nat.
Proof.
  intros E.
  destruct (stops_measure_execution_time _ _ _ _ _ _ _ _ _ E)
    as (tr0 & C0 & [Q0 | (? & ? & ? & _ & _ & _ & Habs)]); [|discriminate].
  destruct (measure_execution_time_spec _ _ _ _ _ _ _ _ _ _ _ _ _ E)
    as (_ & Hns & _ & _ & ms & Hms & Hall & Hcalls & _).
  exists (flat_map (size_events n_repeats) (combine ns ms)).
  split; [exact Hcalls|].
  assert (Hlen : length (combine ns ms) = Z.to_nat n_measures).
  { rewrite length_combine, Hms, Nat.min_id, Hns. apply even_sizes_length. }
  assert (Hin : forall nm, In nm (combine ns ms) ->
                           length (snd (snd nm)) = Z.to_nat n_timings).
  { intros [n m] H. apply in_combine_r in H.
    rewrite Forall_forall in Hall. apply Hall. exact H. }
  split.
  { rewrite Hcalls in C0. apply app_inv_head in C0. rewrite C0. exact Q0. }
  rewrite (count_flat_map is_gen _ 1),
    (count_flat_map is_call _ (Z.to_nat n_timings * Z.to_nat n_repeats)),
    (count_flat_map is_timer _ (Z.to_nat n_timings * 2));
    try (intros nm Hnm; apply (count_size_events n_repeats _ nm (Hin nm Hnm))).
  rewrite Hlen. repeat split; lia.
Qed.

(** *** Degenerate repeat counts *)


(** *** What is printed *)

Lemma timer_stdout (s s' : St) (t : Q) :
  timer perf_counter s = (Ok t, s') -> stdout s' = stdout s.
Proof.
  unfold timer. destruct (perf_counter (world s)) as [t0 w].
  intros H. injection H as _ <-. reflexivity.
Qed.

Lemma run_times_stdout (k : nat) (d : D) (s s' : St) (u : unit) :
  run_times k (call d) s = (Ok u, s') -> stdout s' = stdout s.
Proof.
  revert s. induction k as [|k IH]; intros s H; simpl in H.
  - unfold ret in H. injection H as _ <-. reflexivity.
  - apply bind_ok_inv in H. destruct H as (x & s1 & Hc & Hr).
    apply IH in Hr. rewrite Hr.
    unfold func_wrapper_call in Hc.
    destruct (func d (world s)) as [[y|e] w]; [|discriminate].
    injection Hc as _ <-. reflexivity.
Qed.

Lemma Timer_repeat_loop_stdout (k : nat) (d : D) (number : Z) (s s' : St)
    (ts : list Q) :
  Timer_repeat_loop perf_counter k (call d) number s = (Ok ts, s') ->
  stdout s' = stdout s.
Proof.
  revert s ts. induction k as [|k IH]; intros s ts H; simpl in H.
  - unfold ret in H. injection H as _ <-. reflexivity.
  - apply bind_ok_inv in H. destruct H as (t & s1 & Ht & H).
    apply bind_ok_inv in H. destruct H as (r & s2 & Hr & H).
    unfold ret in H. injection H as _ <-.
    apply IH in Hr. rewrite Hr.
    unfold Timer_timeit in Ht.
    apply bind_ok_inv in Ht. destruct Ht as (t0 & a1 & H0 & Ht).
    apply bind_ok_inv in Ht. destruct Ht as (u & a2 & H1 & Ht).
    apply bind_ok_inv in Ht. destruct Ht as (t1 & a3 & H2 & Ht).
    unfold ret in Ht. injection Ht as _ <-.
    apply timer_stdout in H0, H2. apply run_times_stdout in H1. congruence.
Qed.

Lemma measure_loop_stdout (n_repeats n_timings : Z) (verbose : bool)
    (ns : list Z) (i : nat) (et et' : list Q) (s s' : St) :
  measure_loop perf_counter func data_generator
    n_repeats n_timings verbose i ns et s = (Ok et', s') ->
  (i + length ns <= length et)%nat ->
  exists ts : list Q,
    length ts = length ns
    /\ length et' = length et
    /\ firstn (i + length ns) et' = firstn i et ++ ts
    /\ stdout s'
       = stdout s
           ++ (if verbose
               then map (fun p => LMeasure (fst p) (snd p)) (combine ns ts)
               else []).
Proof.
  revert i et s. induction ns as [|n ns IH]; intros i et s H Hlen.
  - simpl in H. injection H as <- <-.
    exists []. split; [reflexivity|]. split; [reflexivity|]. split.
    { simpl. rewrite app_nil_r, Nat.add_0_r. reflexivity. }
    destruct verbose; simpl; rewrite app_nil_r; reflexivity.
  - simpl in H, Hlen.
    apply bind_ok_inv in H. destruct H as (d & s1 & Hg & H).
    apply bind_ok_inv in H. destruct H as (meas & s2 & Hr & H).
    apply bind_ok_inv in H. destruct H as (m & s3 & Hm & H).
    apply lift_result_ok in Hm. destruct Hm as [Hm ->].
    apply bind_ok_inv in H. destruct H as (et1 & s4 & Hs & H).
    apply lift_result_ok in Hs. destruct Hs as [Hs ->].
    rewrite setitem_in_range in Hs by lia. injection Hs as <-.
    apply bind_ok_inv in H. destruct H as (u & s5 & Hl & H).
    assert (Sg : stdout s1 = stdout s).
    { unfold func_wrapper in Hg.
      destruct (data_generator n (world s)) as [[x|e] w]; [|discriminate].
      injection Hg as _ <-. reflexivity. }
    unfold Timer_repeat in Hr. apply Timer_repeat_loop_stdout in Hr.
    assert (Sl : stdout s5
                 = stdout s2 ++ (if verbose then [LMeasure n m] else [])).
    { destruct verbose; simpl in Hl; unfold print, ret in Hl;
        injection Hl as _ <-; simpl; [reflexivity | rewrite app_nil_r; reflexivity]. }
    apply IH in H; [|rewrite set_nth_length; lia].
    destruct H as (ts & Lts & Hlen' & Hfirst & Hout).
    rewrite set_nth_length in Hlen'.
    exists (m :: ts). repeat split.
    + simpl. lia.
    + exact Hlen'.
    + simpl length.
      replace (i + S (length ns))%nat with (S i + length ns)%nat by lia.
      rewrite Hfirst. rewrite set_nth_firstn by lia.
      rewrite <- app_assoc. reflexivity.
    + rewrite Hout, Sl, Hr, Sg.
      destruct verbose; simpl; rewrite <- app_assoc; reflexivity.
Qed.

(** X4.  When the harness returns with [verbose] set, it has printed
    exactly one line per observation, in the order of measurement, each
    showing a size and the time recorded for that size; without
    [verbose] it has printed nothing. *)
Theorem harness_prints_one_line_per_observation
    (min_n max_n n_measures n_repeats n_timings : Z) (verbose : bool)
    (s s' : St) (ns : list Z) (time : list Q) :
  measure_execution_time perf_counter func data_generator
    min_n max_n n_measures n_repeats n_timings verbose s
  = (Ok (ns, time), s') ->
  stdout s'
  = stdout s
      ++ (if verbose
          then map (fun p => LMeasure (fst p) (snd p)) (combine ns time)
          else []).
Proof.
  intros H.
  destruct (Z.ltb_spec n_measures 0) as [Hneg|Hn].
  { rewrite measure_execution_time_negative in H by exact Hneg. discriminate. }
  rewrite measure_execution_time_unfold in H by exact Hn.
  destruct (measure_loop _ _ _ _ _ _ _ _ _ _) as [[et|e] s1] eqn:E;
    [|discriminate].
  injection H as <- <- <-.
  apply measure_loop_stdout in E;
    [|rewrite np_empty_length, even_sizes_length; simpl; lia].
  destruct E as (ts & Lts & Hlen & Hfirst & Hout).
  rewrite np_empty_length in Hlen. simpl in Hfirst.
  rewrite firstn_all2 in Hfirst by (rewrite Hlen, even_sizes_length; lia).
  subst ts. exact Hout.
Qed.

End HarnessMore.

(** ** Further facts about the selector *)

Section SelectorMore.

Context {W D Class Coeff : Type}.
Variable fit : Class -> list Z -> list Q -> result (Coeff * Float.float).

Local Abbreviation St := (state W D Class Coeff).
Local Abbreviation Inst := (instance Class Coeff).

(** The state the loop ends in, whatever it returns. *)
Lemma infer_loop_state (ns : list Z) (time : list Q) (verbose : bool)
    (classes : list Class) :
  forall (b : option Inst) (br : Float.float) (f : dict Class Coeff) (s : St),
    let s' := snd (infer_loop fit ns time verbose classes b br f s) in
    world s' = world s
    /\ calls s' = calls s
    /\ (next_id s <= next_id s' <= next_id s + length classes)%nat
    /\ match fit_entries fit ns time (next_id s) classes with
       | Ok es =>
           next_id s' = (next_id s + length classes)%nat
           /\ stdout s'
              = stdout s
                  ++ (if verbose
                      then map (fun e => LFit (fst e) (snd e)) es
                      else [])
       | Raise _ => True
       end.
Proof.
  induction classes as [|c cs IH]; intros b br f s.
  - simpl. repeat split; try lia.
    destruct verbose; rewrite app_nil_r; reflexivity.
  - simpl infer_loop. simpl fit_entries.
    unfold new_instance, inst_fit, lift_result, ret, log, print, bind.
    cbn [inst_id inst_class].
    destruct (fit c ns time) as [[co r]|e].
    + cbv beta iota.
      destruct (update_best _ r b br) as [b1 br1].
      destruct verbose.
      * cbv beta iota zeta. cbn [world calls next_id stdout length].
        match goal with |- context [infer_loop _ _ _ _ _ ?b' ?br' ?f' ?s0] =>
          specialize (IH b' br' f' s0) end.
        cbv zeta in IH. cbn [world calls next_id stdout] in IH.
        destruct IH as (Hw & Hc & Hn & Hes).
        split; [exact Hw|]. split; [exact Hc|]. split; [lia|].
        destruct (fit_entries fit ns time (S (next_id s)) cs) as [es|e];
          [|exact I].
        destruct Hes as [Hn' Hout]. split; [lia|].
        rewrite Hout. cbn [map fst snd]. rewrite <- app_assoc. reflexivity.
      * cbv beta iota zeta. cbn [world calls next_id stdout length].
        match goal with |- context [infer_loop _ _ _ _ _ ?b' ?br' ?f' ?s0] =>
          specialize (IH b' br' f' s0) end.
        cbv zeta in IH. cbn [world calls next_id stdout] in IH.
        destruct IH as (Hw & Hc & Hn & Hes).
        split; [exact Hw|]. split; [exact Hc|]. split; [lia|].
        destruct (fit_entries fit ns time (S (next_id s)) cs) as [es|e];
          [|exact I].
        destruct Hes as [Hn' Hout]. split; [lia|].
        rewrite Hout. reflexivity.
    + cbv zeta. cbn [snd world calls next_id length].
      repeat split; try lia.
Qed.

(** X5.  The selector only fits: whatever it returns, it has not invoked
    the callable, the generator or the clock, and it has left the world
    as it found it.  It constructs at most one instance per candidate, and
    exactly one per candidate when it returns normally. *)
Theorem selector_touches_nothing_but_the_heap
    (ns : list Z) (time : list Q) (classes : list Class) (verbose : bool)
    (s s' : St) (r : result (option Inst * dict Class Coeff)) :
  infer_big_o_class fit ns time classes verbose s = (r, s') ->
  world s' = world s
  /\ calls s' = calls s
  /\ (next_id s <= next_id s' <= next_id s + length classes)%nat
  /\ (forall out, r = Ok out -> next_id s' = (next_id s + length classes)%nat).
Proof.
  intros H.
  pose proof (infer_loop_state ns time verbose classes None Float.inf [] s) as L.
  pose proof (infer_big_o_class_value fit ns time classes verbose s) as V.
  unfold infer_big_o_class in H, V. rewrite H in L, V.
  cbv zeta in L. cbn [fst snd] in L, V.
  destruct L as (Hw & Hc & Hn & Hes).
  split; [exact Hw|]. split; [exact Hc|]. split; [exact Hn|].
  intros out ->.
  destruct (fit_entries fit ns time (next_id s) classes) as [es|e];
    [|discriminate].
  apply Hes.
Qed.

(** X6.  When the selector returns with [verbose] set, it has printed
    exactly one line per candidate, in the order of evaluation, each
    showing the fitted instance and its residual, the very pairs that
    make up the returned dictionary; without [verbose] it has printed
    nothing. *)
Theorem selector_prints_one_line_per_candidate
    (ns : list Z) (time : list Q) (classes : list Class) (verbose : bool)
    (s s' : St) (best : option Inst) (fitted : dict Class Coeff) :
  infer_big_o_class fit ns time classes verbose s = (Ok (best, fitted), s') ->
  exists es : list (Inst * Float.float),
    fitted = map entry es
    /\ stdout s'
       = stdout s
           ++ (if verbose then map (fun e => LFit (fst e) (snd e)) es else []).
Proof.
  intros H.
  pose proof (infer_loop_state ns time verbose classes None Float.inf [] s) as L.
  destruct (infer_big_o_class_ok _ _ _ _ _ _ _ _ _ H) as (es & E & _ & Hf).
  unfold infer_big_o_class in H. rewrite H in L.
  cbv zeta in L. cbn [snd] in L. rewrite E in L.
  destruct L as (_ & _ & _ & _ & Hout).
  exists es. split; [exact Hf | exact Hout].
Qed.

Lemma infer_loop_first_failure (ns : list Z) (time : list Q) (verbose : bool)
    (c : Class) (post : list Class) (e : exn) (pre : list Class) :
  (forall c', In c' pre -> exists co r, fit c' ns time = Ok (co, r)) ->
  fit c ns time = Raise e ->
  forall (b : option Inst) (br : Float.float) (f : dict Class Coeff) (s : St),
  exists s',
    infer_loop fit ns time verbose (pre ++ c :: post) b br f s = (Raise e, s')
    /\ next_id s' = (next_id s + length pre + 1)%nat.
Proof.
  intros Hpre Hc. induction pre as [|c0 pre IH]; intros b br f s.
  - simpl. unfold new_instance, inst_fit, lift_result, bind.
    cbn [inst_class]. rewrite Hc.
    eexists. split; [reflexivity|]. simpl. lia.
  - destruct (Hpre c0 (or_introl eq_refl)) as (co & r & E0).
    simpl app. simpl infer_loop.
    unfold new_instance, inst_fit, lift_result, ret, log, print, bind.
    cbn [inst_id inst_class]. rewrite E0. cbv beta iota.
    destruct (update_best _ r b br) as [b1 br1].
    destruct verbose;
      match goal with |- context [infer_loop _ _ _ _ _ ?b' ?br' ?f' ?s0] =>
        destruct (IH (fun c' H => Hpre c' (or_intror H)) b' br' f' s0)
          as (s' & E & Hn) end;
      rewrite E; exists s'; (split; [reflexivity|]);
      rewrite Hn; simpl; lia.
Qed.

(** X7.  A [fit] that raises ends the selection: if the candidates before
    [c] all fit and the [fit] of [c] raises [e], the selector raises [e].
    The instance of [c] has been constructed, those of the candidates
    after [c] never are, and no dictionary is returned. *)
Theorem selector_raises_first_fit_failure
    (ns : list Z) (time : list Q) (verbose : bool)
    (pre post : list Class) (c : Class) (e : exn) (s : St) :
  (forall c', In c' pre -> exists co r, fit c' ns time = Ok (co, r)) ->
  fit c ns time = Raise e ->
  exists s',
    infer_big_o_class fit ns time (pre ++ c :: post) verbose s = (Raise e, s')
    /\ next_id s' = (next_id s + length pre + 1)%nat.
Proof.
  intros Hpre Hc. unfold infer_big_o_class.
  apply infer_loop_first_failure; assumption.
Qed.

(** *** Residuals that cannot win *)

Lemma update_best_inf (i : Inst) (r : Float.float) :
  (never_selected r /\ update_best i r None Float.inf = (None, Float.inf))
  \/ (~ never_selected r /\ update_best i r None Float.inf = (Some i, r)).
Proof.
  unfold update_best, never_selected.
  destruct r as [q| | |]; simpl.
  - right. split; [intros [H|H]; discriminate | reflexivity].
  - left. split; [left; reflexivity | reflexivity].
  - right. split; [intros [H|H]; discriminate | reflexivity].
  - left. split; [right; reflexivity | reflexivity].
Qed.

Lemma running_best_stays_some (es : list (Inst * Float.float)) :
  forall i br, exists i' br', running_best es (Some i, br) = (Some i', br').
Proof.
  induction es as [|[i0 r0] es IH]; intros i br.
  - eexists _, _. reflexivity.
  - change (running_best ((i0, r0) :: es) (Some i, br))
      with (running_best es (update_best i0 r0 (Some i) br)).
    unfold update_best. destruct (Float.ltb r0 _); apply IH.
Qed.

Lemma running_best_none_iff (es : list (Inst * Float.float)) :
  fst (running_best es (None, Float.inf)) = None
  <-> Forall (fun e => never_selected (snd e)) es.
Proof.
  induction es as [|[i r] es IH].
  - split; [constructor | reflexivity].
  - change (running_best ((i, r) :: es) (None, Float.inf))
      with (running_best es (update_best i r None Float.inf)).
    destruct (update_best_inf i r) as [[Hr ->] | [Hr ->]].
    + rewrite IH. split.
      * intros H. constructor; assumption.
      * intros H. inversion H; assumption.
    + destruct (running_best_stays_some es i r) as (i' & br' & ->).
      split; [discriminate|].
      intros H. inversion H; subst. contradiction.
Qed.

(** X8.  A non-empty candidate list does not guarantee a best model.  When
    the selector returns, its best model is [None] exactly when every
    residual in the returned dictionary is [inf] or [nan]: such a residual
    never beats the initial [inf], and any other residual, finite or
    [-inf], does. *)
Theorem best_is_none_iff_no_residual_below_inf
    (ns : list Z) (time : list Q) (classes : list Class) (verbose : bool)
    (s s' : St) (best : option Inst) (fitted : dict Class Coeff) :
  infer_big_o_class fit ns time classes verbose s = (Ok (best, fitted), s') ->
  (best = None <-> forall k r, In (k, VRes r) fitted -> never_selected r).
Proof.
  intros H.
  destruct (infer_big_o_class_ok _ _ _ _ _ _ _ _ _ H) as (es & _ & -> & ->).
  rewrite running_best_none_iff, Forall_forall. split.
  - intros Hall k r Hin. apply in_map_iff in Hin.
    destruct Hin as (e & He & Hin). unfold entry in He.
    injection He as _ <-. apply Hall. exact Hin.
  - intros Hall e Hin. apply (Hall (KInst (fst e)) (snd e)).
    apply (in_map entry es e). exact Hin.
Qed.

End SelectorMore.

(** ** Printing is a side channel *)

Section PipelineMore.

Context {W D Class Coeff : Type}.
Variable fit : Class -> list Z -> list Q -> result (Coeff * Float.float).
Variable perf_counter : W -> Q * W.
Variable func : D -> W -> result unit * W.
Variable data_generator : Z -> W -> result D * W.

Local Abbreviation St := (state W D Class Coeff).
Local Abbreviation blind := (print_blind (W:=W) (D:=D) (Class:=Class) (Coeff:=Coeff)).

Lemma same_but_stdout_refl (s : St) : same_but_stdout s s.
Proof. repeat split. Qed.

Lemma blind_ret {A} (a : A) : blind (ret a) (ret a).
Proof. intros s1 s2 H. split; [reflexivity | exact H]. Qed.

Lemma blind_lift_result {A} (r : result A) :
  blind (lift_result r) (lift_result r).
Proof. intros s1 s2 H. split; [reflexivity | exact H]. Qed.

Lemma blind_bind {A B} (m1 m2 : M St A) (k1 k2 : A -> M St B) :
  blind m1 m2 -> (forall a, blind (k1 a) (k2 a)) ->
  blind (bind m1 k1) (bind m2 k2).
Proof.
  intros Hm Hk s1 s2 Hs. destruct (Hm s1 s2 Hs) as [Hr Hs'].
  unfold bind.
  destruct (m1 s1) as [[a|e] t1], (m2 s2) as [[a'|e'] t2];
    cbn [fst snd] in *; try discriminate.
  - injection Hr as <-. apply Hk. exact Hs'.
  - injection Hr as <-. split; [reflexivity | exact Hs'].
Qed.

Lemma blind_log (l1 l2 : line) (v1 v2 : bool) :
  blind (log l1 (Some v1)) (log l2 (Some v2)).
Proof.
  intros s1 s2 H. destruct v1, v2; simpl; unfold print, ret; cbn [fst snd];
    (split; [reflexivity | exact H]).
Qed.

Lemma blind_timer : blind (timer perf_counter) (timer perf_counter).
Proof.
  intros s1 s2 (Hw & Hn & Hc). unfold timer. rewrite Hw.
  destruct (perf_counter (world s2)) as [t w]. cbn [fst snd].
  split; [reflexivity|]. unfold same_but_stdout. cbn.
  rewrite Hn, Hc. repeat split.
Qed.

Lemma blind_func_wrapper (n : Z) :
  blind (func_wrapper data_generator n) (func_wrapper data_generator n).
Proof.
  intros s1 s2 (Hw & Hn & Hc). unfold func_wrapper. rewrite Hw.
  destruct (data_generator n (world s2)) as [[d|e] w]; cbn [fst snd];
    (split; [reflexivity|]); unfold same_but_stdout; cbn;
    rewrite Hn, Hc; repeat split.
Qed.

Lemma blind_call (d : D) :
  blind (func_wrapper_call func d) (func_wrapper_call func d).
Proof.
  intros s1 s2 (Hw & Hn & Hc). unfold func_wrapper_call. rewrite Hw.
  destruct (func d (world s2)) as [[u|e] w]; cbn [fst snd];
    (split; [reflexivity|]); unfold same_but_stdout; cbn;
    rewrite Hn, Hc; repeat split.
Qed.

Lemma blind_new_instance (c : Class) :
  blind (new_instance c) (new_instance c).
Proof.
  intros s1 s2 (Hw & Hn & Hc). unfold new_instance. cbn [fst snd].
  rewrite Hn. split; [reflexivity|]. unfold same_but_stdout. cbn.
  rewrite Hw, Hc. repeat split.
Qed.

Lemma blind_run_times (k : nat) (d : D) :
  blind (run_times k (func_wrapper_call func d))
        (run_times k (func_wrapper_call func d)).
Proof.
  induction k as [|k IH]; simpl.
  - apply blind_ret.
  - apply blind_bind; [apply blind_call | intros _; exact IH].
Qed.

Lemma blind_Timer_repeat_loop (k : nat) (d : D) (number : Z) :
  blind (Timer_repeat_loop perf_counter k (func_wrapper_call func d) number)
        (Timer_repeat_loop perf_counter k (func_wrapper_call func d) number).
Proof.
  induction k as [|k IH]; simpl.
  - apply blind_ret.
  - apply blind_bind.
    + unfold Timer_timeit.
      apply blind_bind; [apply blind_timer | intros t0].
      apply blind_bind; [apply blind_run_times | intros _].
      apply blind_bind; [apply blind_timer | intros t1].
      apply blind_ret.
    + intros t. apply blind_bind; [exact IH | intros r]. apply blind_ret.
Qed.

Lemma blind_measure_loop (n_repeats n_timings : Z) (v1 v2 : bool)
    (ns : list Z) :
  forall i et,
    blind (measure_loop perf_counter func data_generator
             n_repeats n_timings v1 i ns et)
          (measure_loop perf_counter func data_generator
             n_repeats n_timings v2 i ns et).
Proof.
  induction ns as [|n ns IH]; intros i et; simpl.
  - apply blind_ret.
  - apply blind_bind; [apply blind_func_wrapper | intros d].
    apply blind_bind; [apply blind_Timer_repeat_loop | intros meas].
    apply blind_bind; [apply blind_lift_result | intros m].
    apply blind_bind; [apply blind_lift_result | intros et1].
    apply blind_bind; [apply blind_log | intros _].
    apply IH.
Qed.

Lemma blind_infer_loop (ns : list Z) (time : list Q) (v1 v2 : bool)
    (classes : list Class) :
  forall b br f,
    blind (infer_loop fit ns time v1 classes b br f)
          (infer_loop fit ns time v2 classes b br f).
Proof.
  induction classes as [|c cs IH]; intros b br f; simpl.
  - apply blind_ret.
  - apply blind_bind; [apply blind_new_instance | intros inst].
    apply blind_bind.
    + unfold inst_fit.
      apply blind_bind; [apply blind_lift_result | intros [co r]].
      apply blind_ret.
    + intros [inst' r].
      destruct (update_best inst' r b br) as [b1 br1].
      apply blind_bind; [apply blind_log | intros _].
      apply IH.
Qed.

(** X9.  [verbose] is a pure side channel of the whole pipeline: run from
    the same state, [big_o] with and without it returns the same best
    model and dictionary or raises the same exception, makes the same
    calls to the generator, the callable and the clock, and leaves the
    same world and heap; the two runs differ at most in what was
    printed. *)
Theorem verbose_changes_only_what_is_printed
    (min_n max_n n_measures n_repeats n_timings : Z) (classes : list Class)
    (v1 v2 return_raw_data : bool) (s : St) :
  let run v :=
    big_o fit perf_counter func data_generator
      min_n max_n n_measures n_repeats n_timings classes
      v return_raw_data s in
  fst (run v1) = fst (run v2)
  /\ same_but_stdout (snd (run v1)) (snd (run v2)).
Proof.
  cbv zeta.
  assert (B : blind
                (big_o fit perf_counter func data_generator
                   min_n max_n n_measures n_repeats n_timings classes
                   v1 return_raw_data)
                (big_o fit perf_counter func data_generator
                   min_n max_n n_measures n_repeats n_timings classes
                   v2 return_raw_data)).
  { unfold big_o. apply blind_bind.
    - unfold measure_execution_time.
      apply blind_bind; [apply blind_lift_result | intros y].
      apply blind_bind; [apply blind_measure_loop | intros et].
      apply blind_ret.
    - intros [ns time]. apply blind_bind.
      + unfold infer_big_o_class. apply blind_infer_loop.
      + intros [best fitted]. apply blind_ret. }
  apply B. apply same_but_stdout_refl.
Qed.

End PipelineMore.

(** ** Facts about the data generators *)

Section DatagenFacts.

Import Datagen.

Context {G : Type}.
Variable draw : G -> Z -> Z -> Z * G.

Lemma comprehension_all {A} (P : A -> Prop) (body : M G A) :
  (forall g, exists x g', body g = (Ok x, g') /\ P x) ->
  forall k g,
    exists l g',
      comprehension k body g = (Ok l, g') /\ length l = k /\ Forall P l.
Proof.
  intros Hbody. induction k as [|k IH]; intros g; simpl.
  - exists [], g. repeat split. constructor.
  - unfold bind. destruct (Hbody g) as (x & g1 & -> & Px).
    destruct (IH g1) as (l & g2 & -> & Hlen & Hall).
    exists (x :: l), g2. unfold ret. repeat split.
    + simpl. lia.
    + constructor; assumption.
Qed.

Lemma comprehension_length {A} (body : M G A) :
  forall k g l g', comprehension k body g = (Ok l, g') -> length l = k.
Proof.
  induction k as [|k IH]; intros g l g' H; simpl in H.
  - unfold ret in H. injection H as <- _. reflexivity.
  - apply bind_ok_inv in H. destruct H as (x & g1 & _ & H).
    apply bind_ok_inv in H. destruct H as (xs & g2 & Hxs & H).
    unfold ret in H. injection H as <- _. simpl. f_equal. eapply IH. exact Hxs.
Qed.

(** X12.  When the bounds are the wrong way round ([max_ < min_]),
    [integers] fails only if it has to draw: for a positive [n] its
    constructor raises the [ValueError] of [randint] before anything is
    drawn, while for [n <= 0] it returns the empty list. *)
Theorem integers_with_empty_range (n min_ max_ : Z) (g : G) :
  max_ < min_ ->
  (0 < n ->
     integers draw n min_ max_ tt g
     = (Raise (ValueError "empty range for randrange()"), g))
  /\ (n <= 0 -> integers draw n min_ max_ tt g = (Ok [], g)).
Proof.
  intros Hr. unfold integers. split; intros Hn.
  - destruct (Z.to_nat n) as [|k] eqn:E; [lia|].
    simpl. unfold bind, randint.
    destruct (Z.ltb_spec max_ min_); [reflexivity | lia].
  - replace (Z.to_nat n) with 0%nat by lia. reflexivity.
Qed.

(** X13.  The constructor returned by [range_n(n, start)] yields the [n]
    consecutive integers from [start], in increasing order (none for
    [n <= 0]), and draws nothing from [random]. *)
Theorem range_n_counts_up_from_start (n start : Z) (g : G) :
  exists l,
    range_n n start tt g = (Ok l, g)
    /\ length l = Z.to_nat n
    /\ (forall i, (i < length l)%nat -> nth i l 0 = start + Z.of_nat i)
    /\ StronglySorted Z.lt l.
Proof.
  exists (range_list start (start + n)). unfold range_n, ret, range_list.
  replace (start + n - start) with n by lia.
  split; [reflexivity|]. split; [rewrite length_map, length_seq; reflexivity|].
  split.
  - intros i Hi. rewrite length_map, length_seq in Hi.
    rewrite (nth_indep _ 0 (start + Z.of_nat 0))
      by (rewrite length_map, length_seq; exact Hi).
    rewrite (map_nth (fun i => start + Z.of_nat i)).
    rewrite seq_nth by exact Hi. reflexivity.
  - apply StronglySorted_map_seq. intros i j _ Hij _. lia.
Qed.

(** *** The cycling generator *)

Lemma resume_empty {A} (fuel : nat) : resume (G:=G) (A:=A) fuel [] [] = None.
Proof. induction fuel as [|fuel IH]; simpl; [reflexivity | exact IH]. Qed.

Lemma resume_pending {A} (fuel : nat) (cases rest : list A) (x : A) :
  resume (G:=G) fuel cases (x :: rest) = Some (x, Cycling cases rest).
Proof. destruct fuel; reflexivity. Qed.

Lemma skipn_step {A} (d : A) (l : list A) (p : nat) :
  (p < length l)%nat -> skipn p l = nth p l d :: skipn (S p) l.
Proof.
  revert p. induction l as [|x l IH]; intros p Hp; simpl in Hp; [lia|].
  destruct p as [|p]; [reflexivity|].
  simpl. apply IH. lia.
Qed.

Lemma resume_restart {A} (d : A) (fuel : nat) (cases : list A) :
  cases <> [] ->
  resume (G:=G) (S fuel) cases []
  = Some (nth 0 cases d, Cycling cases (skipn 1 cases)).
Proof.
  intros Hne. destruct cases as [|c0 rest]; [congruence|].
  simpl. apply resume_pending.
Qed.

Lemma take_cycling {A} (d : A) (cases : list A) (fuel : nat) (g : G) :
  cases <> [] -> (1 <= fuel)%nat ->
  forall k p,
    (p <= length cases)%nat ->
    take fuel k (Cycling cases (skipn p cases)) g
    = (Ok (Some (map (fun j => nth ((p + j) mod length cases) cases d)
                     (seq 0 k))), g).
Proof.
  intros Hne Hfuel. induction k as [|k IH]; intros p Hp.
  - reflexivity.
  - assert (Hn : (0 < length cases)%nat).
    { destruct cases; [congruence | simpl; lia]. }
    simpl take. unfold bind at 1. unfold next, ret.
    destruct (Nat.eq_dec p (length cases)) as [-> | Hlt].
    + rewrite skipn_all.
      destruct fuel as [|fuel]; [lia|].
      rewrite (resume_restart d) by exact Hne.
      unfold bind.
      rewrite (IH 1%nat) by lia. unfold ret. cbn [option_map].
      repeat f_equal. simpl seq. cbn [map]. f_equal.
      * rewrite Nat.add_0_r, Nat.Div0.mod_same. reflexivity.
      * rewrite <- seq_shift, map_map. apply map_ext. intros j.
        replace (length cases + S j)%nat with (1 + j + 1 * length cases)%nat by lia.
        rewrite Nat.Div0.mod_add. reflexivity.
    + rewrite (skipn_step d) by lia. rewrite resume_pending.
      unfold bind. rewrite (IH (S p)) by lia. unfold ret. cbn [option_map].
      repeat f_equal. simpl seq. cbn [map]. f_equal.
      * rewrite Nat.add_0_r, Nat.mod_small by lia. reflexivity.
      * rewrite <- seq_shift, map_map. apply map_ext. intros j.
        replace (p + S j)%nat with (S p + j)%nat by lia. reflexivity.
Qed.

(** X14.  A generator made by [datagen] with [n_cases >= 1] calls its
    maker [n_cases] times, all of them at the first [next], and from then
    on cycles through these cases: the [j]-th item it yields is case
    number [j mod n_cases], so every case comes back, the very same value,
    each [n_cases] items; later [next]s call the maker no more.  One
    restart of the [while] loop per [next] is all it takes. *)
Theorem datagen_cycles_through_its_cases {A}
    (single_data_maker : unit -> M G A) (n_cases : Z)
    (g g' : G) (cases : list A) (d : A) (fuel k : nat) :
  0 < n_cases ->
  comprehension (Z.to_nat n_cases) (single_data_maker tt) g = (Ok cases, g') ->
  (1 <= fuel)%nat -> (1 <= k)%nat ->
  take fuel k (datagen single_data_maker n_cases) g
  = (Ok (Some (map (fun j => nth (j mod length cases) cases d) (seq 0 k))), g').
Proof.
  intros Hn Hc Hfuel Hk.
  pose proof (comprehension_length _ _ _ _ _ Hc) as Hlen.
  assert (Hne : cases <> []).
  { intros ->. simpl in Hlen. lia. }
  destruct k as [|k]; [lia|].
  pose proof (take_cycling d cases fuel g' Hne Hfuel) as T.
  simpl take. unfold bind at 1. unfold datagen, next.
  unfold bind at 1. rewrite Hc. unfold ret.
  assert (Hlen1 : (1 <= length cases)%nat) by lia.
  assert (R : resume (G:=G) fuel cases cases
              = Some (nth 0 cases d, Cycling cases (skipn 1 cases))).
  { destruct cases as [|c0 rest]; [congruence | apply resume_pending]. }
  rewrite R. unfold bind.
  rewrite (T k 1%nat) by exact Hlen1.
  cbn [option_map]. repeat f_equal. simpl seq. cbn [map]. f_equal.
  - rewrite Nat.Div0.mod_0_l. reflexivity.
  - rewrite <- seq_shift, map_map. reflexivity.
Qed.

(** X15.  A generator made by [datagen] with [n_cases <= 0] never yields:
    its first [next] builds an empty list of cases without calling the
    maker and then spins in [while True] over an empty [for] loop; no
    number of restarts of the loop reaches a [yield]. *)
Theorem datagen_without_cases_never_yields {A}
    (single_data_maker : unit -> M G A) (n_cases : Z) (g : G) (fuel : nat) :
  n_cases <= 0 ->
  next fuel (datagen single_data_maker n_cases) g = (Ok None, g).
Proof.
  intros Hn. unfold datagen, next.
  replace (Z.to_nat n_cases) with 0%nat by lia.
  simpl. unfold bind, ret. rewrite resume_empty. reflexivity.
Qed.

(** *** Random data *)

Section Contract.

(** What [random] promises of a draw from a non-empty range. *)
Hypothesis draw_in_range :
  forall g a b, a <= b -> a <= fst (draw g a b) <= b.

Lemma randint_in_range (a b : Z) (g : G) :
  a <= b ->
  exists x g', randint draw a b g = (Ok x, g') /\ a <= x <= b.
Proof.
  intros Hab. unfold randint.
  destruct (Z.ltb_spec b a); [lia|].
  pose proof (draw_in_range g a b Hab) as Hd.
  destruct (draw g a b) as [x g']. exists x, g'. split; [reflexivity | exact Hd].
Qed.

(** X10.  With [min_ <= max_], the constructor returned by
    [integers(n, min_, max_)] returns a list of exactly [n] integers
    (none for [n <= 0]), each between [min_] and [max_] inclusive. *)
Theorem integers_are_within_bounds (n min_ max_ : Z) (g : G) :
  min_ <= max_ ->
  exists l g',
    integers draw n min_ max_ tt g = (Ok l, g')
    /\ length l = Z.to_nat n
    /\ Forall (fun x => min_ <= x <= max_) l.
Proof.
  intros Hr. unfold integers.
  apply comprehension_all. intros g0. apply randint_in_range. exact Hr.
Qed.

(** X11.  The constructor returned by [large_integers(n)] returns a list
    of exactly [n] integers, each a multiple of a million between
    [-50] and [50] million plus an offset between [0] and [10000]: the
    values lie between [-50000000] and [50010000] and their remainder
    modulo a million is at most [10000]. *)
Theorem large_integers_shape (n : Z) (g : G) :
  exists l g',
    large_integers draw n tt g = (Ok l, g')
    /\ length l = Z.to_nat n
    /\ Forall (fun x => -50000000 <= x <= 50010000
                        /\ 0 <= x mod 1000000 <= 10000) l.
Proof.
  unfold large_integers. apply comprehension_all. intros g0.
  unfold bind.
  destruct (randint_in_range (-50) 50 g0 ltac:(lia)) as (a & g1 & -> & Ha).
  destruct (randint_in_range 0 10000 g1 ltac:(lia)) as (b & g2 & -> & Hb).
  exists (a * 1000000 + b), g2. unfold ret. split; [reflexivity|].
  split; [lia|].
  rewrite Z.add_comm, Z.mod_add by lia.
  rewrite Z.mod_small by lia. lia.
Qed.

End Contract.

End DatagenFacts.

(** ** Facts about plotting *)

Section PlottingFacts.

Import Plotting.

Lemma builtin_min_fold (xs : list Q) (x : Q) :
  is_minimum (fold_left (fun m y => if Float.Qlt_bool y m then y else m) xs x)
             (x :: xs).
Proof.
  revert x. induction xs as [|y ys IH]; intros x; simpl.
  - split; [now left | constructor; [apply Qle_refl | constructor]].
  - destruct (Float.Qlt_bool y x) eqn:E.
    + apply Qlt_bool_iff in E.
      destruct (IH y) as [Hin Hall]. inversion Hall as [|? ? Hhd Htl]; subst.
      split.
      * destruct Hin as [Hin | Hin]; [right; now left | right; now right].
      * constructor; [eapply Qle_trans; [exact Hhd | apply Qlt_le_weak; exact E]|].
        constructor; assumption.
    + apply Qlt_bool_false in E.
      destruct (IH x) as [Hin Hall]. inversion Hall as [|? ? Hhd Htl]; subst.
      split.
      * destruct Hin as [Hin | Hin]; [now left | right; now right].
      * constructor; [exact Hhd|].
        constructor; [eapply Qle_trans; eassumption | exact Htl].
Qed.

Lemma builtin_max_fold (xs : list Q) (x : Q) :
  let m := fold_left (fun m y => if Float.Qlt_bool m y then y else m) xs x in
  In m (x :: xs) /\ Forall (fun t => (t <= m)%Q) (x :: xs).
Proof.
  revert x. induction xs as [|y ys IH]; intros x; simpl.
  - split; [now left | constructor; [apply Qle_refl | constructor]].
  - destruct (Float.Qlt_bool x y) eqn:E.
    + apply Qlt_bool_iff in E.
      destruct (IH y) as [Hin Hall]. inversion Hall as [|? ? Hhd Htl]; subst.
      split.
      * destruct Hin as [Hin | Hin]; [right; now left | right; now right].
      * constructor; [eapply Qle_trans; [apply Qlt_le_weak; exact E | exact Hhd]|].
        constructor; assumption.
    + apply Qlt_bool_false in E.
      destruct (IH x) as [Hin Hall]. inversion Hall as [|? ? Hhd Htl]; subst.
      split.
      * destruct Hin as [Hin | Hin]; [now left | right; now right].
      * constructor; [exact Hhd|].
        constructor; [eapply Qle_trans; eassumption | exact Htl].
Qed.

(** X16.  [plot] on at least one observation sets the limits of the
    y-axis before drawing, then draws the scatter and the line of the same
    data and shows the figure; the limits are the least and the greatest
    time, each moved outward by 5% of their difference, so that every
    plotted time lies within them.  On no observation it raises the
    [ValueError] of [min] and calls nothing of [pyplot]. *)
Theorem plot_limits_enclose_every_time
    (ns : list Z) (time : list Q) (figure : list pyplot_call) :
  (time = [] ->
     plot ns time figure
     = (Raise (ValueError "min() arg is an empty sequence"), figure))
  /\ (time <> [] ->
        exists lo hi,
          is_minimum lo time
          /\ In hi time /\ Forall (fun t => (t <= hi)%Q) time
          /\ plot ns time figure
             = (Ok tt,
                figure ++ [Ylim (lo - (5 # 100) * (hi - lo))
                                (hi + (5 # 100) * (hi - lo));
                           Scatter ns time; Plot ns time; Show])
          /\ Forall (fun t => (lo - (5 # 100) * (hi - lo) <= t)%Q
                              /\ (t <= hi + (5 # 100) * (hi - lo))%Q) time).
Proof.
  split.
  - intros ->. reflexivity.
  - intros Hne. destruct time as [|x xs]; [congruence|].
    pose proof (builtin_min_fold xs x) as [Hmin_in Hmin].
    pose proof (builtin_max_fold xs x) as Hmax. cbv zeta in Hmax.
    destruct Hmax as [Hmax_in Hmax].
    eexists _, _. split; [split; [exact Hmin_in | exact Hmin]|].
    split; [exact Hmax_in|]. split; [exact Hmax|]. split.
    + unfold plot, bind, lift_result, pyplot. simpl builtin_min. simpl builtin_max.
      cbv beta iota. rewrite <- !app_assoc. reflexivity.
    + rewrite Forall_forall in Hmin, Hmax. apply Forall_forall. intros t Ht.
      pose proof (Hmin t Ht) as H1. pose proof (Hmax t Ht) as H2.
      split; lra.
Qed.

End PlottingFacts.

(** ** The clock and the sign of the recorded times *)

Section MonotonicClock.

Context {W D Class Coeff : Type}.
Variable perf_counter : W -> Q * W.
Variable func : D -> W -> result unit * W.
Variable data_generator : Z -> W -> result D * W.

Local Abbreviation St := (state W D Class Coeff).
Local Abbreviation call := (func_wrapper_call (Class:=Class) (Coeff:=Coeff) func).

(** [perf_counter] is a monotonic clock: there is a time [now] of every
    world, it is what the clock shows, and neither reading the clock nor
    running the callable sets it back. *)
Variable now : W -> Q.
Hypothesis clock_shows_now :
  forall w, fst (perf_counter w) = now w
            /\ (now w <= now (snd (perf_counter w)))%Q.
Hypothesis func_takes_time :
  forall d w, (now w <= now (snd (func d w)))%Q.

Lemma timer_now (s s' : St) (t : Q) :
  timer perf_counter s = (Ok t, s') ->
  t = now (world s) /\ (now (world s) <= now (world s'))%Q.
Proof.
  unfold timer. pose proof (clock_shows_now (world s)) as [H1 H2].
  destruct (perf_counter (world s)) as [t0 w]. simpl in H1, H2.
  intros H. injection H as <- <-. split; [exact H1 | exact H2].
Qed.

Lemma run_times_now (k : nat) (d : D) (s s' : St) (u : unit) :
  run_times k (call d) s = (Ok u, s') ->
  (now (world s) <= now (world s'))%Q.
Proof.
  revert s. induction k as [|k IH]; intros s H; simpl in H.
  - unfold ret in H. injection H as _ <-. apply Qle_refl.
  - apply bind_ok_inv in H. destruct H as (x & s1 & Hc & Hr).
    apply IH in Hr. eapply Qle_trans; [|exact Hr].
    unfold func_wrapper_call in Hc.
    pose proof (func_takes_time d (world s)) as Hf.
    destruct (func d (world s)) as [[y|e] w]; [|discriminate].
    injection Hc as _ <-. exact Hf.
Qed.

Lemma Timer_repeat_loop_nonnegative (k : nat) (d : D) (number : Z)
    (s s' : St) (ts : list Q) :
  Timer_repeat_loop perf_counter k (call d) number s = (Ok ts, s') ->
  Forall (fun t => (0 <= t)%Q) ts.
Proof.
  revert s s' ts. induction k as [|k IH]; intros s s' ts H; simpl in H.
  - unfold ret in H. injection H as <- _. constructor.
  - apply bind_ok_inv in H. destruct H as (t & s1 & Ht & H).
    apply bind_ok_inv in H. destruct H as (r & s2 & Hr & H).
    unfold ret in H. injection H as <- _.
    constructor; [|eapply IH; exact Hr].
    unfold Timer_timeit in Ht.
    apply bind_ok_inv in Ht. destruct Ht as (t0 & a1 & H0 & Ht).
    apply bind_ok_inv in Ht. destruct Ht as (u & a2 & H1 & Ht).
    apply bind_ok_inv in Ht. destruct Ht as (t1 & a3 & H2 & Ht).
    unfold ret in Ht. injection Ht as <- _.
    apply timer_now in H0. destruct H0 as [-> L0].
    apply run_times_now in H1.
    apply timer_now in H2. destruct H2 as [-> _].
    lra.
Qed.

Lemma measure_loop_nonnegative (n_repeats n_timings : Z) (verbose : bool)
    (ns : list Z) (i : nat) (et et' : list Q) (s s' : St) :
  measure_loop perf_counter func data_generator
    n_repeats n_timings verbose i ns et s = (Ok et', s') ->
  (i + length ns <= length et)%nat ->
  exists ts : list Q,
    length et' = length et
    /\ firstn (i + length ns) et' = firstn i et ++ ts
    /\ Forall (fun t => (0 <= t)%Q) ts.
Proof.
  revert i et s. induction ns as [|n ns IH]; intros i et s H Hlen.
  - simpl in H. injection H as <- _.
    exists []. split; [reflexivity|]. split; [|constructor].
    simpl. rewrite app_nil_r, Nat.add_0_r. reflexivity.
  - simpl in H, Hlen.
    apply bind_ok_inv in H. destruct H as (d & s1 & Hg & H).
    apply bind_ok_inv in H. destruct H as (meas & s2 & Hr & H).
    apply bind_ok_inv in H. destruct H as (m & s3 & Hm & H).
    apply lift_result_ok in Hm. destruct Hm as [Hm ->].
    apply bind_ok_inv in H. destruct H as (et1 & s4 & Hs & H).
    apply lift_result_ok in Hs. destruct Hs as [Hs ->].
    rewrite setitem_in_range in Hs by lia. injection Hs as <-.
    apply bind_ok_inv in H. destruct H as (u & s5 & Hl & H).
    unfold Timer_repeat in Hr. apply Timer_repeat_loop_nonnegative in Hr.
    apply min_spec in Hm. destruct Hm as [Hin _].
    rewrite Forall_forall in Hr. pose proof (Hr m Hin) as Hpos.
    apply IH in H; [|rewrite set_nth_length; lia].
    destruct H as (ts & Hlen' & Hfirst & Hall).
    rewrite set_nth_length in Hlen'.
    exists (m :: ts). split; [exact Hlen'|]. split.
    + simpl length.
      replace (i + S (length ns))%nat with (S i + length ns)%nat by lia.
      rewrite Hfirst. rewrite set_nth_firstn by lia.
      rewrite <- app_assoc. reflexivity.
    + constructor; assumption.
Qed.

(** X17.  With a monotonic clock, one that neither a reading nor a run of
    the callable sets back, every time the harness returns is
    non-negative. *)
Theorem recorded_times_are_nonnegative
    (min_n max_n n_measures n_repeats n_timings : Z) (verbose : bool)
    (s s' : St) (ns : list Z) (time : list Q) :
  measure_execution_time perf_counter func data_generator
    min_n max_n n_measures n_repeats n_timings verbose s
  = (Ok (ns, time), s') ->
  Forall (fun t => (0 <= t)%Q) time.
Proof.
  intros H.
  destruct (Z.ltb_spec n_measures 0) as [Hneg|Hn].
  { rewrite measure_execution_time_negative in H by exact Hneg. discriminate. }
  rewrite measure_execution_time_unfold in H by exact Hn.
  destruct (measure_loop _ _ _ _ _ _ _ _ _ _) as [[et|e] s1] eqn:E;
    [|discriminate].
  injection H as <- <- <-.
  apply measure_loop_nonnegative in E;
    [|rewrite np_empty_length, even_sizes_length; simpl; lia].
  destruct E as (ts & Hlen & Hfirst & Hall).
  rewrite np_empty_length in Hlen. simpl in Hfirst.
  rewrite firstn_all2 in Hfirst by (rewrite Hlen, even_sizes_length; lia).
  subst ts. exact Hall.
Qed.

End MonotonicClock.

(** ** The best model and the first candidate *)

Section SelectorBias.

Context {W D Class Coeff : Type}.
Variable fit : Class -> list Z -> list Q -> result (Coeff * Float.float).

Local Abbreviation St := (state W D Class Coeff).
Local Abbreviation Inst := (instance Class Coeff).

Lemma update_best_selectable (i : Inst) (r : Float.float)
    (b : option Inst) (br : Float.float) :
  ~ never_selected br ->
  ~ never_selected (snd (update_best i r b br)).
Proof.
  intros Hbr. unfold update_best.
  destruct (Float.ltb r (Float.sub br (Float.Fin Float.eps))) eqn:E;
    [|exact Hbr].
  simpl. unfold never_selected.
  intros [-> | ->]; destruct br; simpl in E; discriminate.
Qed.

Lemma running_best_selectable (es : list (Inst * Float.float)) :
  forall b br,
    ~ never_selected br -> ~ never_selected (snd (running_best es (b, br))).
Proof.
  induction es as [|[i r] es IH]; intros b br Hbr.
  - exact Hbr.
  - change (running_best ((i, r) :: es) (b, br))
      with (running_best es (update_best i r b br)).
    pose proof (update_best_selectable i r b br Hbr) as H.
    destruct (update_best i r b br) as [b1 br1]. apply IH. exact H.
Qed.

Lemma running_best_from_inf_selectable (es : list (Inst * Float.float))
    (b : Inst) :
  fst (running_best es (None, Float.inf)) = Some b ->
  ~ never_selected (snd (running_best es (None, Float.inf))).
Proof.
  induction es as [|[i r] es IH]; intros H.
  - discriminate.
  - revert H.
    change (running_best ((i, r) :: es) (None, Float.inf))
      with (running_best es (update_best i r None Float.inf)).
    destruct (update_best_inf i r) as [[Hr ->] | [Hr ->]]; intros H.
    + apply IH. exact H.
    + apply running_best_selectable. exact Hr.
Qed.

(** X18.  A best model, when there is one, is one of the instances fitted
    in this call: it is a key of the returned dictionary, the residual
    recorded under it reads back from the dictionary, and that residual
    is neither [inf] nor [nan]. *)
Theorem best_model_is_a_key_of_fitted
    (ns : list Z) (time : list Q) (classes : list Class) (verbose : bool)
    (s s' : St) (best : Inst) (fitted : dict Class Coeff) :
  infer_big_o_class fit ns time classes verbose s
  = (Ok (Some best, fitted), s') ->
  exists r,
    In (KInst best, VRes r) fitted
    /\ residual_of fitted best = Some r
    /\ ~ never_selected r
    /\ (next_id s <= inst_id best < next_id s + length classes)%nat.
Proof.
  intros H.
  destruct (infer_big_o_class_ok _ _ _ _ _ _ _ _ _ H) as (es & E & Hb & ->).
  symmetry in Hb.
  pose proof (best_residual_running es (fit_entries_NoDup _ _ _ _ _ _ E)) as Hres.
  pose proof (running_best_from_inf_selectable es best Hb) as Hsel.
  rewrite Hb in Hres. simpl in Hres.
  destruct (running_best_origin es (None, Float.inf)) as [E0 | (i & Hi & Hin)].
  { rewrite E0 in Hb. discriminate. }
  rewrite Hb in Hi. injection Hi as <-.
  exists (snd (running_best es (None, Float.inf))).
  split; [|split; [exact Hres | split; [exact Hsel|]]].
  - apply (in_map entry es _ Hin).
  - destruct (fit_entries_In _ _ _ _ _ _ _ E Hin) as (_ & _ & _ & _ & Hid).
    exact Hid.
Qed.

Lemma running_best_unbeaten (es : list (Inst * Float.float))
    (b : option Inst) (br : Float.float) :
  Forall (fun e => ~ lower_by_more_than_eps (snd e) br) es ->
  running_best es (b, br) = (b, br).
Proof.
  induction es as [|[i r] es IH]; intros H.
  - reflexivity.
  - inversion H as [|? ? Hr Hes]; subst.
    change (running_best ((i, r) :: es) (b, br))
      with (running_best es (update_best i r b br)).
    destruct (update_best_cases i r b br) as [[L _] | [_ ->]];
      [contradiction | apply IH; exact Hes].
Qed.

Lemma running_best_beaten (es : list (Inst * Float.float))
    (b : Inst) (br : Float.float) :
  ~ In (inst_id b) (map (fun e => inst_id (fst e)) es) ->
  Exists (fun e => lower_by_more_than_eps (snd e) br) es ->
  fst (running_best es (Some b, br)) <> Some b.
Proof.
  induction es as [|[i r] es IH]; intros Hid Hex.
  - inversion Hex.
  - change (running_best ((i, r) :: es) (Some b, br))
      with (running_best es (update_best i r (Some b) br)).
    simpl in Hid.
    destruct (update_best_cases i r (Some b) br) as [[L ->] | [NL ->]].
    + destruct (running_best_origin es (Some i, r)) as [-> | (j & -> & Hin)].
      * simpl. intros Heq. injection Heq as ->. apply Hid. left. reflexivity.
      * intros Heq. injection Heq as ->. apply Hid. right.
        apply (in_map (fun e => inst_id (fst e)) es _ Hin).
    + apply IH.
      * intros Hin. apply Hid. right. exact Hin.
      * inversion Hex as [? ? Hhere | ? ? Hlater]; subst;
          [contradiction | exact Hlater].
Qed.


End SelectorBias.

(** ** The pipeline at concrete inputs *)

Lemma Demo_func_returns : returns_normally Demo.func.
Proof.
  intros d [t [|c cs]]; eexists _, _; reflexivity.
Qed.

Lemma Demo_n_returns : returns_normally Demo.n_.
Proof. intros n w. eexists _, _. reflexivity. Qed.

(** C1, the claim as stated fails: on an empty candidate list the selector
    returns [None] and an empty dictionary; it raises nothing. *)
Lemma empty_candidate_list_counterexample :
  Demo.infer [] = (Ok (None, []), Demo.s0 [])
  /\ ~ (exists e s', Demo.infer [] = (Raise e, s')).
Proof.
  split; [vm_compute; reflexivity|].
  intros (e & s' & H). discriminate H.
Qed.








Lemma raw_data_adds_two_string_entries_witness :
  exists best fitted' s',
    Demo.estimate 1 10 2 [Demo.residual 30; Demo.residual 5] true
    = (Ok (best, fitted'), s')
    /\ exists ns time fitted,
         Demo.estimate 1 10 2 [Demo.residual 30; Demo.residual 5] false
         = (Ok (best, fitted), s')
         /\ forallb (fun kv => is_model_key (fst kv)) fitted = true
         /\ fitted' = fitted ++ [(KStr "measures", VSizes ns);
                                 (KStr "times", VTimes time)].
Proof.
  eexists _, _, _.
  match goal with |- ?run /\ _ => assert (E : run) by (vm_compute; reflexivity) end.
  split; [exact E|].
  destruct (raw_data_adds_two_string_entries _ _ _ _ _ _ _ _ _ _ _ _ _ _ _ E)
    as (ns & time & fitted & s1 & _ & _ & H3 & H4 & H5).
  exists ns, time, fitted. repeat split; assumption.
Defined.

Lemma fitted_has_one_entry_per_candidate_witness :
  [Demo.residual 30; Demo.residual 25; Demo.residual 19] <> []
  /\ exists best fitted s',
       Demo.infer [Demo.residual 30; Demo.residual 25; Demo.residual 19]
       = (Ok (best, fitted), s')
       /\ length fitted = 3%nat
       /\ nth_error fitted 1
          = Some (KInst (mkInstance 1 (Demo.residual 25) (Some tt)),
                  VRes (Demo.residual 25)).
Proof.
  split; [discriminate|].
  destruct (fitted_has_one_entry_per_candidate
              (W:=Demo.World) (D:=Z) Demo.fit [100; 200] [1; 2]%Q
              [Demo.residual 30; Demo.residual 25; Demo.residual 19]
              false (Demo.s0 []) ltac:(discriminate)) as [HA HB].
  destruct HA as (best & fitted & s' & E).
  { intros c _. exists tt, c. reflexivity. }
  exists best, fitted, s'. split; [exact E|].
  destruct (HB best fitted s' E) as (Hlen & Hnth & _).
  split; [exact Hlen|].
  destruct (Hnth 1%nat (Demo.residual 25) eq_refl) as (co & r & Hfit & Hentry).
  injection Hfit as <- <-. exact Hentry.
Defined.


(** ** The further properties at concrete inputs *)

Lemma DemoRandom_draw_in_range :
  forall g a b, a <= b -> a <= fst (DemoRandom.draw g a b) <= b.
Proof.
  intros g a b Hab. unfold DemoRandom.draw. simpl.
  pose proof (Z.mod_pos_bound g (b - a + 1) ltac:(lia)). lia.
Qed.

Lemma harness_invocation_counts_witness :
  exists ns time s',
    Demo.measure 10 40 4 2 3 [5; 3; 4; 2; 6; 1]%Q = (Ok (ns, time), s')
    /\ exists tr,
         calls s' = calls (Demo.s0 [5; 3; 4; 2; 6; 1]%Q) ++ tr
         /\ quiet tr
         /\ count is_gen tr = 4%nat
         /\ count is_call tr = 24%nat
         /\ count is_timer tr = 24%nat.
Proof.
  eexists _, _, _.
  match goal with |- ?run /\ _ => assert (E : run) by (vm_compute; reflexivity) end.
  split; [exact E|].
  exact (harness_invocation_counts _ _ _ _ _ _ _ _ _ _ _ _ _ E).
Defined.


Lemma harness_prints_one_line_per_observation_witness :
  exists ns time s',
    measure_execution_time (Class:=Float.float) (Coeff:=unit)
      Demo.perf_counter Demo.func Demo.n_ 10 30 3 1 1 true (Demo.s0 [4; 5; 6]%Q)
    = (Ok (ns, time), s')
    /\ stdout s'
       = stdout (Demo.s0 [4; 5; 6]%Q)
           ++ map (fun p => LMeasure (fst p) (snd p)) (combine ns time).
Proof.
  eexists _, _, _.
  match goal with |- ?run /\ _ => assert (E : run) by (vm_compute; reflexivity) end.
  split; [exact E|].
  exact (harness_prints_one_line_per_observation _ _ _ _ _ _ _ _ _ _ _ _ _ E).
Defined.

Lemma selector_touches_nothing_but_the_heap_witness :
  exists r s',
    Demo.infer [Demo.residual 30; Demo.residual 25] = (r, s')
    /\ world s' = world (Demo.s0 [])
    /\ calls s' = calls (Demo.s0 [])
    /\ next_id s' = 2%nat.
Proof.
  eexists _, _.
  match goal with |- ?run /\ _ => assert (E : run) by (vm_compute; reflexivity) end.
  split; [exact E|].
  destruct (selector_touches_nothing_but_the_heap _ _ _ _ _ _ _ _ E)
    as (Hw & Hc & _ & Hn).
  split; [exact Hw|]. split; [exact Hc|].
  exact (Hn _ eq_refl).
Defined.

Lemma selector_prints_one_line_per_candidate_witness :
  exists best fitted s',
    infer_big_o_class (W:=Demo.World) (D:=Z) Demo.fit [100; 200] [1; 2]%Q
      [Demo.residual 30; Demo.residual 25] true (Demo.s0 [])
    = (Ok (best, fitted), s')
    /\ exists es,
         fitted = map entry es
         /\ stdout s'
            = stdout (Demo.s0 []) ++ map (fun e => LFit (fst e) (snd e)) es.
Proof.
  eexists _, _, _.
  match goal with |- ?run /\ _ => assert (E : run) by (vm_compute; reflexivity) end.
  split; [exact E|].
  exact (selector_prints_one_line_per_candidate _ _ _ _ _ _ _ _ _ E).
Defined.

Lemma selector_raises_first_fit_failure_witness :
  (forall c', In c' [Some (Demo.residual 30)] ->
              exists co r, Demo.fit_or_raise c' [100; 200] [1; 2]%Q = Ok (co, r))
  /\ Demo.fit_or_raise None [100; 200] [1; 2]%Q = Raise (FitError "rank-deficient")
  /\ exists s',
       infer_big_o_class (W:=Demo.World) (D:=Z) Demo.fit_or_raise
         [100; 200] [1; 2]%Q
         ([Some (Demo.residual 30)] ++ None :: [Some (Demo.residual 1)])
         false (mkState (0%Q, []) 0%nat [] [])
       = (Raise (FitError "rank-deficient"), s')
       /\ next_id s' = (0 + 1 + 1)%nat.
Proof.
  assert (Hpre : forall c', In c' [Some (Demo.residual 30)] ->
                   exists co r,
                     Demo.fit_or_raise c' [100; 200] [1; 2]%Q = Ok (co, r)).
  { intros c' [<- | []]. eexists tt, _. reflexivity. }
  split; [exact Hpre|]. split; [reflexivity|].
  exact (selector_raises_first_fit_failure (W:=Demo.World) (D:=Z)
           Demo.fit_or_raise [100; 200] [1; 2]%Q false
           [Some (Demo.residual 30)] [Some (Demo.residual 1)] None
           (FitError "rank-deficient") (mkState (0%Q, []) 0%nat [] [])
           Hpre eq_refl).
Defined.

Lemma best_is_none_iff_no_residual_below_inf_witness :
  exists fitted s',
    Demo.infer [Float.PInf; Float.NaN] = (Ok (None, fitted), s')
    /\ forall k r, In (k, VRes r) fitted -> never_selected r.
Proof.
  eexists _, _.
  match goal with |- ?run /\ _ => assert (E : run) by (vm_compute; reflexivity) end.
  split; [exact E|].
  apply (best_is_none_iff_no_residual_below_inf _ _ _ _ _ _ _ _ _ E).
  reflexivity.
Defined.

Lemma integers_are_within_bounds_witness :
  1 <= 6
  /\ exists l g',
       Datagen.integers DemoRandom.draw 5 1 6 tt 42 = (Ok l, g')
       /\ length l = Z.to_nat 5
       /\ Forall (fun x => 1 <= x <= 6) l.
Proof.
  split; [lia|].
  apply (integers_are_within_bounds DemoRandom.draw DemoRandom_draw_in_range).
  lia.
Defined.

Lemma large_integers_shape_witness :
  exists l g',
    Datagen.large_integers DemoRandom.draw 3 tt 42 = (Ok l, g')
    /\ length l = Z.to_nat 3
    /\ Forall (fun x => -50000000 <= x <= 50010000
                        /\ 0 <= x mod 1000000 <= 10000) l.
Proof.
  apply (large_integers_shape DemoRandom.draw DemoRandom_draw_in_range).
Defined.

Lemma integers_with_empty_range_witness :
  1 < 5
  /\ Datagen.integers DemoRandom.draw 3 5 1 tt 42
     = (Raise (ValueError "empty range for randrange()"), 42)
  /\ Datagen.integers DemoRandom.draw 0 5 1 tt 42 = (Ok [], 42).
Proof.
  split; [lia|].
  split.
  - apply (integers_with_empty_range DemoRandom.draw 3 5 1 42); lia.
  - apply (integers_with_empty_range DemoRandom.draw 0 5 1 42); lia.
Defined.

Lemma datagen_cycles_through_its_cases_witness :
  exists cases g',
    Datagen.comprehension (Z.to_nat 3)
      (Datagen.integers DemoRandom.draw 2 1 6 tt) 42 = (Ok cases, g')
    /\ Datagen.take 1 7 (Datagen.datagen (Datagen.integers DemoRandom.draw 2 1 6) 3) 42
       = (Ok (Some (map (fun j => nth (j mod length cases) cases []) (seq 0 7))), g').
Proof.
  eexists _, _.
  match goal with |- ?run /\ _ => assert (E : run) by (vm_compute; reflexivity) end.
  split; [exact E|].
  apply (datagen_cycles_through_its_cases
           (Datagen.integers DemoRandom.draw 2 1 6) 3 42 _ _ [] 1 7);
    [lia | exact E | lia | lia].
Defined.

Lemma datagen_without_cases_never_yields_witness :
  0 <= 0
  /\ Datagen.next 1000
       (Datagen.datagen (Datagen.integers DemoRandom.draw 2 1 6) 0) 42
     = (Ok None, 42).
Proof.
  split; [lia|].
  apply (datagen_without_cases_never_yields
           (Datagen.integers DemoRandom.draw 2 1 6) 0 42 1000).
  lia.
Defined.

Lemma plot_limits_enclose_every_time_witness :
  [3; 1; 2]%Q <> []
  /\ exists lo hi,
       Plotting.plot [10; 20; 30] [3; 1; 2]%Q []
       = (Ok tt,
          [] ++ [Plotting.Ylim (lo - (5 # 100) * (hi - lo))
                               (hi + (5 # 100) * (hi - lo));
                 Plotting.Scatter [10; 20; 30] [3; 1; 2]%Q;
                 Plotting.Plot [10; 20; 30] [3; 1; 2]%Q; Plotting.Show])
       /\ Forall (fun t => (lo - (5 # 100) * (hi - lo) <= t)%Q
                           /\ (t <= hi + (5 # 100) * (hi - lo))%Q) [3; 1; 2]%Q.
Proof.
  split; [discriminate|].
  destruct (plot_limits_enclose_every_time [10; 20; 30] [3; 1; 2]%Q []) as [_ H].
  destruct (H ltac:(discriminate)) as (lo & hi & _ & _ & _ & Hp & Hall).
  exists lo, hi. split; assumption.
Defined.

Lemma harness_stops_at_first_raise_witness :
  exists s',
    measure_execution_time (Class:=Float.float) (Coeff:=unit)
      Demo.perf_counter Demo.flaky Demo.n_ 10 20 2 2 1 false (Demo.s0 [4; 5; 6]%Q)
    = (Raise (Exception "out of durations"), s')
    /\ exists tr,
         calls s' = calls (Demo.s0 [4; 5; 6]%Q) ++ tr
         /\ (quiet tr
             \/ exists tr0 ev e,
                  tr = tr0 ++ [ev] /\ quiet tr0 /\ raised ev = Some e
                  /\ Raise (A:=list Z * list Q) (Exception "out of durations")
                     = Raise e).
Proof.
  eexists.
  match goal with |- ?run /\ _ => assert (E : run) by (vm_compute; reflexivity) end.
  split; [exact E|].
  exact (harness_stops_at_first_raise (Class:=Float.float) (Coeff:=unit)
           Demo.perf_counter Demo.flaky Demo.n_ 10 20 2 2 1 false _ _ _ E).
Defined.

Lemma DemoClock_shows_now :
  forall w, fst (DemoClock.perf_counter w) = DemoClock.now w
            /\ (DemoClock.now w <= DemoClock.now (snd (DemoClock.perf_counter w)))%Q.
Proof.
  intros w. unfold DemoClock.perf_counter, DemoClock.now. simpl.
  split; [reflexivity | lra].
Qed.

Lemma DemoClock_func_takes_time :
  forall d w, (DemoClock.now w <= DemoClock.now (snd (DemoClock.func d w)))%Q.
Proof.
  intros d w. unfold DemoClock.func, DemoClock.now. simpl.
  assert (H : (0 <= inject_Z (Z.abs d))%Q).
  { change 0%Q with (inject_Z 0). rewrite <- Zle_Qle. lia. }
  lra.
Qed.

Lemma recorded_times_are_nonnegative_witness :
  exists ns time s',
    measure_execution_time (Class:=Float.float) (Coeff:=unit)
      DemoClock.perf_counter DemoClock.func DemoClock.n_ 1 9 3 2 2 false
      (mkState 0%Q 0%nat [] [])
    = (Ok (ns, time), s')
    /\ Forall (fun t => (0 <= t)%Q) time.
Proof.
  eexists _, _, _.
  match goal with |- ?run /\ _ => assert (E : run) by (vm_compute; reflexivity) end.
  split; [exact E|].
  exact (recorded_times_are_nonnegative
           DemoClock.perf_counter DemoClock.func DemoClock.n_ DemoClock.now
           DemoClock_shows_now DemoClock_func_takes_time
           _ _ _ _ _ _ _ _ _ _ E).
Defined.

Lemma best_model_is_a_key_of_fitted_witness :
  exists best fitted s',
    Demo.infer [Demo.residual 30; Demo.residual 25; Demo.residual 19]
    = (Ok (Some best, fitted), s')
    /\ exists r,
         In (KInst best, VRes r) fitted
         /\ residual_of fitted best = Some r
         /\ ~ never_selected r.
Proof.
  eexists _, _, _.
  match goal with |- ?run /\ _ => assert (E : run) by (vm_compute; reflexivity) end.
  split; [exact E|].
  destruct (best_model_is_a_key_of_fitted _ _ _ _ _ _ _ _ _ E)
    as (r & H1 & H2 & H3 & _).
  exists r. repeat split; assumption.
Defined.

